(** * QuizTime backend: question delivery, statistics and leaderboard

    A shallow embedding of the request handlers of [index.js] (both the
    file-backed and the MongoDB-backed generations of the server) and the
    properties of their question selection, statistics merge and leaderboard
    maintenance.

    Conventions of the embedding:
    - JavaScript numbers that the handlers treat as counters, scores, prizes
      and ids are integers ([Z]); question ids, user names and levels are
      strings;
    - a request field that may be missing from the body is an [option]
      ([None] is JavaScript's [undefined]);
    - a MongoDB collection queried by a unique key is a [gmap] on that key, a
      collection scanned in natural order is a list, the single leaderboard
      document is an [option] (absent until first saved);
    - [save] validates and casts by the schema of [db/models.js]: a document
      that lacks a required path, or holds a value that does not cast to the
      type of its path, is rejected, and the handler's [catch] answers 500;
      [Number(s)] on a string is an argument [to_number] of the handlers that
      cast strings ([None] is NaN);
    - a module-level name that a module does not declare raises a
      ReferenceError where it is evaluated;
    - [Math.random] and the random comparator of the shuffle are oracles: the
      handlers take the outcome of the shuffle and the stream of random draws
      as arguments;
    - a [while] loop is run with fuel; [None] means the fuel ran out. *)

From Stdlib Require Import ZArith.
From Stdlib Require Uint63 Floats.
From stdpp Require Import base option list strings pretty gmap sorting.

Open Scope Z_scope.

(** ** JavaScript primitives used by the handlers *)

Module Js.

(** Values a JSON body field can hold, as far as truthiness matters. *)
Inductive jsval : Type :=
  | JUndefined
  | JNull
  | JBool (b : bool)
  | JNum (z : Z)
  | JNaN
  | JStr (s : string).

(** ToBoolean. *)
Definition truthy (v : jsval) : bool :=
  match v with
  | JUndefined | JNull | JNaN => false
  | JBool b => b
  | JNum z => negb (z =? 0)
  | JStr s => negb (String.eqb s "")
  end.

(** [a || b]. *)
Definition or (a b : jsval) : jsval := if truthy a then a else b.

(** [x || d] for an optional number: [undefined] and [0] give [d]. *)
Definition num_or (x : option Z) (d : Z) : Z :=
  match x with
  | Some z => if z =? 0 then d else z
  | None => d
  end.

(** [s || d] for an optional string: [undefined] and [""] give [d]. *)
Definition str_or (x : option string) (d : string) : string :=
  match x with
  | Some s => if String.eqb s "" then d else s
  | None => d
  end.

(** [x > 0] for an optional number: [undefined > 0] is [false]. *)
Definition gt0 (x : option Z) : bool :=
  match x with
  | Some z => 0 <? z
  | None => false
  end.

Section Arrays.
Context {A : Type}.

(** [Array.prototype.findIndex]: the first index whose element satisfies
    [p], or [-1]. *)
Fixpoint findIndex_from (p : A → bool) (l : list A) (i : Z) : Z :=
  match l with
  | [] => -1
  | x :: l' => if p x then i else findIndex_from p l' (i + 1)
  end.

Definition findIndex (p : A → bool) (l : list A) : Z := findIndex_from p l 0.

(** [Array.prototype.find]. *)
Fixpoint find (p : A → bool) (l : list A) : option A :=
  match l with
  | [] => None
  | x :: l' => if p x then Some x else find p l'
  end.

(** [Array.prototype.some]. *)
Fixpoint some (p : A → bool) (l : list A) : bool :=
  match l with
  | [] => false
  | x :: l' => p x || some p l'
  end.

(** [Array.prototype.filter]. *)
Fixpoint filter (p : A → bool) (l : list A) : list A :=
  match l with
  | [] => []
  | x :: l' => if p x then x :: filter p l' else filter p l'
  end.

(** [l.slice(0, n)]. *)
Definition slice0 (n : nat) (l : list A) : list A := take n l.
End Arrays.

(** [Array.prototype.includes] and [indexOf] on arrays of strings. *)
Definition includes (l : list string) (s : string) : bool :=
  some (String.eqb s) l.

Definition indexOf (l : list string) (s : string) : Z :=
  findIndex (String.eqb s) l.

(** [Math.max(...l)] for a non-empty [l]. *)
Definition max_of (l : list Z) : Z :=
  match l with
  | [] => 0
  | x :: l' => fold_left Z.max l' x
  end.

(** The double of an integer: exact below [2^53] in absolute value, the
    nearest double up to [2^63]. *)
Definition to_double (z : Z) : PrimFloat.float :=
  if z <? 0 then PrimFloat.opp (PrimFloat.of_uint63 (Uint63.of_Z (- z)))
  else PrimFloat.of_uint63 (Uint63.of_Z z).

(** [Math.round(x)] for a finite [x]: the integer nearest to [x], the greater
    one of two that are equally near, that is [floor (x + 1/2)] taken exactly
    on the value [m * 2^e] of the double. NaN and the infinities, which no
    quotient of two integers with a positive divisor yields, give [0]. *)
Definition math_round (x : PrimFloat.float) : Z :=
  match FloatOps.Prim2SF x with
  | SpecFloat.S754_finite s m e =>
      let n := if s then - Z.pos m else Z.pos m in
      if 0 <=? e then n * 2 ^ e
      else (2 * n + 2 ^ (- e)) `div` 2 ^ (- e + 1)
  | _ => 0
  end.

(** [Math.round((c / q) * 100)], in double arithmetic as the code computes
    it: 23 of 40 is 57, since [(23 / 40) * 100] is the double just below
    57.5. *)
Definition round_pct (c q : Z) : Z :=
  math_round
    (PrimFloat.mul (PrimFloat.div (to_double c) (to_double q)) (to_double 100)).

(** [String(v)]. *)
Definition to_text (v : jsval) : string :=
  match v with
  | JUndefined => "undefined"
  | JNull => "null"
  | JBool b => if b then "true" else "false"
  | JNum z => pretty z
  | JNaN => "NaN"
  | JStr s => s
  end.

(** The cast of a value assigned to a [Number] path of a schema. [to_number]
    is [Number(s)] on strings, [None] for NaN. The result is [None] when the
    cast fails (a CastError, which makes [save] reject the document) and
    [Some None] when the path is set to null. *)
Definition cast_number (to_number : string → option Z) (v : jsval)
  : option (option Z) :=
  match v with
  | JUndefined | JNull => Some None
  | JBool b => Some (Some (if b then 1 else 0))
  | JNum z => Some (Some z)
  | JNaN => None
  | JStr s => if String.eqb s "" then Some None else Some <$> to_number s
  end.

(** The [required] validator of a [String] path. *)
Definition required_string (s : string) : bool := negb (String.eqb s "").

(** [l.sort((a, b) => rank b - rank a)]: the sort is stable, so the result
  is the one of a stable insertion sort in descending order of [rank]:
  each element in turn goes behind every element that ranks at least as
  high. *)
Section Sort.
Context {A : Type} (rank : A → Z).

Fixpoint insert_desc (x : A) (l : list A) : list A :=
  match l with
  | [] => [x]
  | y :: l' =>
      if rank y <? rank x then x :: y :: l' else y :: insert_desc x l'
  end.

Definition sort_desc (l : list A) : list A :=
  fold_left (λ acc x, insert_desc x acc) l [].

(** Descending order of [rank]. *)
Definition desc (a b : A) : Prop := rank b ≤ rank a.
End Sort.

End Js.


(** ** The question catalog and the JSON files of the data directory *)

(** A question object of [easy.json], [medium.json], [hard.json] and
    [questions.json]. *)
Module Question.
Record t : Type := mk {
  id : string;
  question : string;
  options : list string;
  answer : string
}.
End Question.

(** The data directory: a file that does not exist is absent from the map
    ([None] for the single files). *)
Module Files.
Record t : Type := mk {
  level_json : gmap string (list Question.t);        (* `${level}.json` *)
  questions_json : option (list Question.t);          (* questions.json *)
  user_questions_json : option (gmap string (list string))
}.
End Files.

Definition LEVELS : list string := ["easy"; "medium"; "hard"]%string.

(** [getQuestions(level)]: the parsed file, or [[]] when it does not exist. *)
Definition getQuestions (fs : Files.t) (level : string) : list Question.t :=
  match Files.level_json fs !! level with
  | Some qs => qs
  | None => []
  end.

(** [getAllQuestions()]. *)
Definition getAllQuestions (fs : Files.t) : list Question.t :=
  match Files.questions_json fs with
  | Some qs => qs
  | None => []
  end.

(** ** POST /api/check-answer *)

Module Answers.

Inductive response : Type :=
  | Status (code : Z) (error : string)   (* res.status(code).json({ error }) *)
  | Json (correct : bool) (correctAnswer : option string).  (* [None]: null *)


(** The two module-level names the handler refers to, as the module that
    holds it binds them: [None] for a name the module does not declare. *)
Record scope : Type := mk_scope {
  scope_LEVELS : option (list string);
  scope_getQuestions : option (Files.t → string → list Question.t)
}.

(** The file-backed server, and the middle generation of the MongoDB-backed
    server: both declare [const LEVELS] and [function getQuestions]. *)
Definition declaring_scope : scope := mk_scope (Some LEVELS) (Some getQuestions).

(** The MongoDB-backed server of [index.js]: it declares [getAllQuestions]
    and [getRandomQuestions], and neither [LEVELS] nor [getQuestions]. *)
Definition primary_scope : scope := mk_scope None None.

(** What a request comes to: an answer of the handler, or the exception the
    handler raised before it answered ([name] is not defined), which Express
    turns into its own 500 page. *)
Inductive outcome : Type :=
  | Answered (r : response)
  | ReferenceError (name : string).

(** The handler within a module. *)
Definition check_answer_in (sc : scope) (fs : Files.t)
  (level questionId answer : string) : outcome :=
  match scope_LEVELS sc with
  | None => ReferenceError "LEVELS"
  | Some LEVELS =>
      if negb (Js.includes LEVELS level) then Answered (Status 400 "Invalid level")
      else
        match scope_getQuestions sc with
        | None => ReferenceError "getQuestions"
        | Some getQuestions =>
            let questions := getQuestions fs level in
            match Js.find (λ q, String.eqb (Question.id q) questionId)
                    questions with
            | None => Answered (Status 404 "Question not found")
            | Some question =>
                let isCorrect := String.eqb (Question.answer question) answer in
                Answered
                  (Json isCorrect
                     (if isCorrect then None else Some (Question.answer question)))
            end
        end
  end.

End Answers.

(** ** POST /api/game/questions: the game session builder *)

Module Session.

(** An element of the [questions] array of the response. [answer] is
    [options.indexOf(answer)]; [prizeValue] is [None] where the prize table has
    no entry. *)
Module Item.
Record t : Type := mk {
  id : string;
  question : string;
  options : list string;
  answer : Z;
  questionNumber : Z;
  timeLimit : Z;
  level : string;
  prizeValue : option Z
}.
End Item.

Definition prizeStructure : list Z :=
  [ 1000; 2000; 3000;
  5000; 10000; 20000; 50000; 100000; 200000;
  500000; 1000000; 2000000; 5000000; 10000000; 50000000; 700000000 ].

(** The time limit of position [i] (zero-based). *)
Definition timeLimit_at (i : nat) : Z :=
  if (3 <=? i)%nat && (i <? 9)%nat then 20
  else if (9 <=? i)%nat then 30
  else 10.

(** The level of position [i] (zero-based). *)
Definition level_at (i : nat) : string :=
  if (3 <=? i)%nat && (i <? 9)%nat then "medium"
  else if (9 <=? i)%nat then "hard"
  else "easy".

(** [getRandomQuestions(questionsPool, count)]; [shuffled] is the outcome of
    [[...questionsPool].sort(() => Math.random() - 0.5)]. *)
Definition getRandomQuestions (questionsPool shuffled : list Question.t)
  (count : nat) : list Question.t :=
  if (length questionsPool <=? count)%nat then questionsPool
  else Js.slice0 count shuffled.

(** The object pushed by the [forEach] over the selected questions. *)
Definition selected_item (i : nat) (q : Question.t) : Item.t :=
  Item.mk (Question.id q) (Question.question q) (Question.options q)
    (Js.indexOf (Question.options q) (Question.answer q))
    (Z.of_nat i + 1) (timeLimit_at i) (level_at i) (prizeStructure !! i).

(** The object pushed by the padding loop at [questionIndex]. *)
Definition padded_item (questionIndex : nat) (randomQ : Question.t) : Item.t :=
  Item.mk (Question.id randomQ) (Question.question randomQ)
    (Question.options randomQ)
    (Js.indexOf (Question.options randomQ) (Question.answer randomQ))
    (Z.of_nat questionIndex + 1) (timeLimit_at questionIndex)
    (level_at questionIndex)
    (Some (Js.num_or (prizeStructure !! questionIndex) 1000000)).

(** The padding loop
    [while (allQuestions.length < 16 && allAvailableQuestions.length > 0)].
    [rand k] is the [k]-th draw of
    [Math.floor(Math.random() * allAvailableQuestions.length)], reduced into
    range. [None]: the loop is still running when the fuel is spent. *)
Fixpoint pad (fuel : nat) (rand : nat → nat) (k : nat)
  (allAvailableQuestions : list Question.t) (allQuestions : list Item.t)
  : option (list Item.t) :=
  if (length allQuestions <? 16)%nat && (0 <? length allAvailableQuestions)%nat
  then
    match fuel with
    | O => None
    | S fuel' =>
        match allAvailableQuestions
                !! (rand k `mod` length allAvailableQuestions)%nat with
        | None => None
        | Some randomQ =>
            let isDuplicate :=
              Js.some (λ q, String.eqb (Item.id q) (Question.id randomQ))
                allQuestions in
            if negb isDuplicate
            then pad fuel' rand (S k) allAvailableQuestions
                   (allQuestions ++ [padded_item (length allQuestions) randomQ])
            else pad fuel' rand (S k) allAvailableQuestions allQuestions
        end
    end
  else Some allQuestions.

(** The body of the response: [questions] and [totalQuestions]
    ([gameStructure] is a constant). *)
Record response : Type := mk_response {
  questions : list Item.t;
  totalQuestions : Z
}.

(** The handler from the prize table on. [shuffled] and [rand] are the
    random outcomes; the result is [None] when the padding loop has not
    finished within [fuel] iterations. *)
Definition game_questions (fuel : nat) (rand : nat → nat)
  (shuffled : list Question.t) (fs : Files.t) : option response :=
  let allAvailableQuestions := getAllQuestions fs in
  let selectedQuestions := getRandomQuestions allAvailableQuestions shuffled 16 in
  let allQuestions := imap selected_item selectedQuestions in
  let padded :=
    if (length allQuestions <? 16)%nat
    then pad fuel rand 0 allAvailableQuestions allQuestions
    else Some allQuestions in
  match padded with
  | None => None
  | Some allQuestions' => Some (mk_response (Js.slice0 16 allQuestions') 16)
  end.

End Session.

(** ** POST /api/questions: batches that avoid repeats *)

Module Progress.

(** A document of the [Question] collection. *)
Module Doc.
Record t : Type := mk {
  id : string;
  question : string;
  options : list string;
  answer : string;
  level : option string;
  category : string
}.
End Doc.

(** The primary store and the data directory. [users] maps a user name to the
    [questionsAnswered] array of its [User] document. *)
Record store : Type := mk_store {
  users : gmap string (list string);
  docs : list Doc.t;
  files : Files.t
}.

Inductive response : Type :=
  | Status (code : Z) (error : string)
  | Docs (questions : list Doc.t)          (* res.json(questions) *)
  | Selected (selected : list Question.t). (* res.json(selected) *)

(** The question ids a response delivers. *)
Definition delivered (r : response) : list string :=
  match r with
  | Status _ _ => []
  | Docs questions => Doc.id <$> questions
  | Selected selected => Question.id <$> selected
  end.

(** [.limit(n)]: a limit of [0] is no limit. *)
Definition limit {A : Type} (n : nat) (l : list A) : list A :=
  match n with
  | O => l
  | _ => take n l
  end.

(** [Question.insertMany(docs)], ordered, against the unique index on [id]:
    documents are inserted in turn and the first duplicate key raises. The
    result is the collection and whether the call succeeded. *)
Fixpoint insertMany (new : list Doc.t) (coll : list Doc.t) : list Doc.t * bool :=
  match new with
  | [] => (coll, true)
  | d :: new' =>
      if Js.some (λ e, String.eqb (Doc.id e) (Doc.id d)) coll then (coll, false)
      else insertMany new' (coll ++ [d])
  end.

(** [User.findOne({ username })] and, when there is no such user,
    [new User({ username, questionsAnswered: [] }).save()]. The [User] schema
    requires [email] and [password], which the new document lacks: the save
    is rejected and nothing is created. The result is the [questionsAnswered]
    of the user found, [None] when the save has raised. *)
Definition find_or_create_user (s : store) (username : string)
  : option (list string) :=
  users s !! username.

(** The common body of the two MongoDB-backed handlers, from the query on.
    [matches] is the query apart from the [$nin] clause, [allQuestions] the
    file catalog of the fallback and [to_doc] the document built from a file
    question. *)
Definition next_batch (matches : Doc.t → bool) (allQuestions : list Question.t)
  (to_doc : Question.t → Doc.t) (s : store) (username : string) (count : nat)
  : store * response :=
  match find_or_create_user s username with
  | None => (s, Status 500 "Server error fetching questions")
  | Some questionsAnswered =>
      let questions :=
        limit count
          (Js.filter
             (λ d, matches d && negb (Js.includes questionsAnswered (Doc.id d)))
             (docs s)) in
      if (length questions =? 0)%nat then
        (* getUserQuestions returns the object {} when the file does not
           exist: spreading it throws, and the catch block answers 500 *)
        match Files.user_questions_json (files s) with
        | None => (s, Status 500 "Server error fetching questions")
        | Some data =>
            let userQuestions := default [] (data !! username) in
            let unusedQuestions :=
              Js.filter (λ q, negb (Js.includes userQuestions (Question.id q)))
                allQuestions in
            let selected := Js.slice0 count unusedQuestions in
            let data' :=
              <[username := userQuestions ++ (Question.id <$> selected)]> data in
            let fs' :=
              Files.mk (Files.level_json (files s))
                (Files.questions_json (files s)) (Some data') in
            let questionDocs := to_doc <$> selected in
            if (0 <? length questionDocs)%nat then
              let '(docs', ok) := insertMany questionDocs (docs s) in
              if ok then (mk_store (users s) docs' fs', Selected selected)
              else (mk_store (users s) docs' fs',
                    Status 500 "Server error fetching questions")
            else (mk_store (users s) (docs s) fs', Selected selected)
        end
      else
        (mk_store
           (<[username := questionsAnswered ++ (Doc.id <$> questions)]> (users s))
           (docs s) (files s),
         Docs questions)
  end.

(** The level-filtered handler. *)
Definition questions_by_level (s : store) (username level : string) (count : nat)
  : store * response :=
  if negb (Js.includes LEVELS level) then (s, Status 400 "Invalid level")
  else
    next_batch
      (λ d, bool_decide (Doc.level d = Some level))
      (getQuestions (files s) level)
      (λ q, Doc.mk (Question.id q) (Question.question q) (Question.options q)
              (Question.answer q) (Some level) "general")
      s username count.

(** The handler without levels; [count] defaults to 20. *)
Definition questions_any (s : store) (username : string) (count : option nat)
  : store * response :=
  next_batch
    (λ _, true)
    (getAllQuestions (files s))
    (λ q, Doc.mk (Question.id q) (Question.question q) (Question.options q)
            (Question.answer q) None "general")
    s username (default 20%nat count).

End Progress.

(** ** Statistics *)

(** A document of the [Stats] collection (unique on [username]). *)
Module Stats.
Record t : Type := mk {
  id : Z;
  userId : string;
  username : string;
  gamesPlayed : Z;
  gamesCompleted : Z;
  totalPrizeMoney : Z;
  questionsAnswered : Z;
  accuracy : Z;
  averageCompletionTime : string
}.
End Stats.

(** [Stats.findOne().sort({ id: -1 })]: the largest [id] of the collection. *)
Definition last_stat_id (coll : gmap string Stats.t) : option Z :=
  map_fold
    (λ _ st acc, Some (match acc with
                       | Some a => Z.max a (Stats.id st)
                       | None => Stats.id st
                       end))
    None coll.

(** ** The leaderboard ranked by prize *)

Module Entry.
Record t : Type := mk {
  id : Z;
  userId : string;
  playerName : string;
  prizeWon : Z;
  questionsAnswered : Z;
  totalQuestions : Z;
  completionDate : Z;
  completionTime : option Z   (* a Number path; [None]: null *)
}.
End Entry.

(** [if (l.length > 100) l = l.slice(0, 100)]. *)
Definition keep_top_100 {A : Type} (l : list A) : list A :=
  if (100 <? length l)%nat then Js.slice0 100 l else l.

(** The id of the next entry: one more than the largest id, [1] on an empty
    board. *)
Definition next_entry_id (leaderboard : list Entry.t) : Z :=
  (if (0 <? length leaderboard)%nat
   then Js.max_of (Entry.id <$> leaderboard)
   else 0) + 1.

(** [push], [sort] by [prizeWon] descending, keep the top 100. *)
Definition add_entry (leaderboard : list Entry.t) (newEntry : Entry.t)
  : list Entry.t :=
  keep_top_100 (Js.sort_desc Entry.prizeWon (leaderboard ++ [newEntry])).

(** [leaderboard.findIndex(entry => entry.id === newId) + 1]. *)
Definition position_of (leaderboard : list Entry.t) (newId : Z) : Z :=
  Js.findIndex (λ entry, Entry.id entry =? newId) leaderboard + 1.

(** ** POST /api/game/complete *)

Module Complete.

(** The request body. [correctAnswers] is used as a number without a
    default; [gameCompleted] stands for its truthiness; [completionTime] is
    whatever JSON value the client sent, a number of seconds or a text such
    as 3:10. *)
Record body : Type := mk_body {
  questionsAnswered : option Z;
  correctAnswers : Z;
  totalQuestions : option Z;
  finalPrize : option Z;
  completionTime : Js.jsval;
  gameCompleted : bool
}.

(** [req.user], the payload of the verified token: the name and the id of a
    registered user, neither of them empty. *)
Record identity : Type := mk_identity {
  username : string;
  userId : string
}.

(** The two collections the handler touches; the leaderboard document is
    absent until the first save. *)
Record store : Type := mk_store {
  stats : gmap string Stats.t;
  leaderboard : option (list Entry.t)
}.

Record summary : Type := mk_summary {
  s_gamesPlayed : Z;
  s_totalPrize : Z;
  s_accuracy : Z
}.

Record response : Type := mk_response {
  success : bool;
  message : string;
  leaderboardPosition : option Z;
  stats_summary : summary
}.

(** What the handler sends: its answer, or the answer of its [catch]. *)
Inductive result : Type :=
  | Sent (r : response)                  (* res.json(r) *)
  | Failed (code : Z) (error : string).  (* res.status(code).json({ error }) *)

(** The branch for an existing [Stats] document. *)
Definition update_stats (st : Stats.t) (b : body) : Stats.t :=
  let gamesPlayed := Stats.gamesPlayed st + 1 in
  let gamesCompleted :=
    if gameCompleted b then Stats.gamesCompleted st + 1
    else Stats.gamesCompleted st in
  let totalPrizeMoney := Stats.totalPrizeMoney st + Js.num_or (finalPrize b) 0 in
  let questionsAnswered' :=
    Stats.questionsAnswered st + Js.num_or (questionsAnswered b) 0 in
  let accuracy :=
    if 0 <? questionsAnswered'
    then Js.round_pct (correctAnswers b) questionsAnswered'
    else 0 in
  Stats.mk (Stats.id st) (Stats.userId st) (Stats.username st)
    gamesPlayed gamesCompleted totalPrizeMoney questionsAnswered' accuracy
    (Stats.averageCompletionTime st).

(** The branch that creates the [Stats] document. *)
Definition create_stats (coll : gmap string Stats.t) (u : identity) (b : body)
  : Stats.t :=
  let newId := match last_stat_id coll with Some i => i + 1 | None => 1 end in
  Stats.mk newId (userId u) (username u)
    1
    (if gameCompleted b then 1 else 0)
    (Js.num_or (finalPrize b) 0)
    (Js.num_or (questionsAnswered b) 0)
    (match questionsAnswered b with
     | Some q => if 0 <? q then Js.round_pct (correctAnswers b) q else 0
     | None => 0
     end)
    (Js.to_text (Js.or (completionTime b) (Js.JStr "0:00"))).

(** The statistics part of the handler: the saved document. *)
Definition save_stats (coll : gmap string Stats.t) (u : identity) (b : body)
  : Stats.t :=
  match coll !! username u with
  | Some st => update_stats st b
  | None => create_stats coll u b
  end.

(** [completionTime || "0:00"] as cast for the [completionTime] path of a
    leaderboard entry, a [Number]; [None]: the value does not cast. *)
Definition entry_time (to_number : string → option Z) (b : body)
  : option (option Z) :=
  Js.cast_number to_number (Js.or (completionTime b) (Js.JStr "0:00")).

(** The handler; [now] is [new Date()]. The statistics are saved first. The
    leaderboard document is saved with its new entry unless the entry's
    [completionTime] does not cast: then [leaderboard.save()] rejects, the
    document stays as it was and the [catch] answers. *)
Definition game_complete (to_number : string → option Z) (now : Z) (s : store)
  (u : identity) (b : body) : store * result :=
  let st := save_stats (stats s) u b in
  let stats' := <[username u := st]> (stats s) in
  let sum := mk_summary (Stats.gamesPlayed st) (Stats.totalPrizeMoney st)
             (Stats.accuracy st) in
  if Js.gt0 (finalPrize b) then
    let board := default [] (leaderboard s) in
    let newId := next_entry_id board in
    match entry_time to_number b with
    | Some time =>
        let newEntry :=
          Entry.mk newId (userId u) (username u) (default 0 (finalPrize b))
            (Js.num_or (questionsAnswered b) 0) (Js.num_or (totalQuestions b) 16)
            now time in
        let board' := add_entry board newEntry in
        (mk_store stats' (Some board'),
         Sent (mk_response true "Game results saved successfully"
                 (Some (position_of board' newId)) sum))
    | None =>
        (mk_store stats' (leaderboard s),
         Failed 500 "Server error saving game results")
    end
  else
    (mk_store stats' (leaderboard s),
     Sent (mk_response true "Game stats updated" None sum)).

End Complete.

(** ** POST /api/complete-game *)

Module Legacy.

(** The request body; [completionTime] is whatever JSON value the client
    sent, [undefined] when it sent none. *)
Record body : Type := mk_body {
  userId : string;
  playerName : string;
  prizeWon : Z;
  questionsAnswered : Z;
  totalQuestions : Z;
  completionTime : Js.jsval
}.

Record response : Type := mk_response {
  success : bool;
  message : string;
  leaderboardPosition : Z
}.

Inductive result : Type :=
  | Sent (r : response)
  | Failed (code : Z) (error : string).

(** The body's [completionTime] as cast for the path of the entry: the
    schema's default [0] for [undefined]; [None]: the value does not cast. *)
Definition entry_time (to_number : string → option Z) (b : body)
  : option (option Z) :=
  match completionTime b with
  | Js.JUndefined => Some (Some 0)
  | v => Js.cast_number to_number v
  end.

(** The handler. [leaderboard.save()] rejects an entry whose required
    [userId] or [playerName] is empty or whose [completionTime] does not
    cast; the document then stays as it was. *)
Definition complete_game (to_number : string → option Z) (now : Z)
  (leaderboard : option (list Entry.t)) (b : body)
  : option (list Entry.t) * result :=
  let board := default [] leaderboard in
  let newId := next_entry_id board in
  match entry_time to_number b with
  | Some time =>
      if Js.required_string (userId b) && Js.required_string (playerName b) then
        let newEntry :=
          Entry.mk newId (userId b) (playerName b) (prizeWon b)
            (questionsAnswered b) (totalQuestions b) now time in
        let board' := add_entry board newEntry in
        (Some board',
         Sent (mk_response true "Game completed and added to leaderboard"
                 (position_of board' newId)))
      else (leaderboard, Failed 500 "Server error completing game")
  | None => (leaderboard, Failed 500 "Server error completing game")
  end.

End Legacy.

(** ** The leaderboard ranked by score, one entry per user name *)

Module ScoreEntry.
Record t : Type := mk {
  username : string;
  score : Z;
  questionsAnswered : Z;
  correctAnswers : Z;
  averageTimePerQuestion : Z;
  totalTime : Z;
  date : Z
}.
End ScoreEntry.

Module Scores.

(** The fields of [gameStats] that reach the leaderboard. *)
Record gameStats : Type := mk_gameStats {
  score : Z;
  questionsAnswered : Z;
  correctAnswers : Z;
  averageTimePerQuestion : Z;
  totalTime : Z
}.

(** [updateLeaderboard(username, gameStats)] on the contents of
    [leaderboard.json] ([None]: the file does not exist); the result is the
    array written back. [now] is [new Date()]. *)
Definition updateLeaderboard (now : Z) (file : option (list ScoreEntry.t))
  (username : string) (g : gameStats) : list ScoreEntry.t :=
  let leaderboard := default [] file in
  let userIndex :=
    Js.findIndex (λ entry, String.eqb (ScoreEntry.username entry) username)
      leaderboard in
  let leaderboardEntry :=
    ScoreEntry.mk username (score g) (questionsAnswered g) (correctAnswers g)
      (averageTimePerQuestion g) (totalTime g) now in
  let leaderboard' :=
    if 0 <=? userIndex then
      match leaderboard !! Z.to_nat userIndex with
      | Some existing =>
          if ScoreEntry.score existing <? ScoreEntry.score leaderboardEntry
          then <[Z.to_nat userIndex := leaderboardEntry]> leaderboard
          else leaderboard
      | None => leaderboard
      end
    else leaderboard ++ [leaderboardEntry] in
  keep_top_100 (Js.sort_desc ScoreEntry.score leaderboard').

(** The leaderboard part of the MongoDB-backed POST /api/stats on the
    [entries] of the leaderboard document ([None]: no document yet). *)
Definition stats_leaderboard (now : Z) (doc : option (list ScoreEntry.t))
  (username : string) (g : gameStats) : list ScoreEntry.t :=
  let entries := default [] doc in
  let leaderboardEntry :=
    ScoreEntry.mk username (score g) (questionsAnswered g) (correctAnswers g)
      (averageTimePerQuestion g) (totalTime g) now in
  let existingEntryIndex :=
    Js.findIndex (λ entry, String.eqb (ScoreEntry.username entry) username)
      entries in
  let entries' :=
    if 0 <=? existingEntryIndex then
      match entries !! Z.to_nat existingEntryIndex with
      | Some existing =>
          if ScoreEntry.score existing <? ScoreEntry.score leaderboardEntry
          then <[Z.to_nat existingEntryIndex := leaderboardEntry]> entries
          else entries
      | None => entries
      end
    else entries ++ [leaderboardEntry] in
  keep_top_100 (Js.sort_desc ScoreEntry.score entries').

End Scores.

(** ** POST /api/stats on the [Stats] collection *)

Module StatsUpdate.

(** The request body; every statistic is whatever JSON value the client
    sent. *)
Record body : Type := mk_body {
  username : string;
  userId : option string;
  gamesPlayed : Js.jsval;
  gamesCompleted : Js.jsval;
  totalPrizeMoney : Js.jsval;
  questionsAnswered : Js.jsval;
  accuracy : Js.jsval;
  averageCompletionTime : Js.jsval
}.

(** The values the handler assigns to the paths of the document. *)
Module Assigned.
Record t : Type := mk {
  id : Z;
  userId : string;
  username : string;
  gamesPlayed : Js.jsval;
  gamesCompleted : Js.jsval;
  totalPrizeMoney : Js.jsval;
  questionsAnswered : Js.jsval;
  accuracy : Js.jsval;
  averageCompletionTime : Js.jsval
}.
End Assigned.

(** The branch for an existing document. *)
Definition update_existing (stats : Stats.t) (b : body) : Assigned.t :=
  Assigned.mk (Stats.id stats) (Stats.userId stats) (Stats.username stats)
    (Js.or (gamesPlayed b) (Js.JNum (Stats.gamesPlayed stats + 1)))
    (Js.or (gamesCompleted b) (Js.JNum (Stats.gamesCompleted stats)))
    (Js.or (totalPrizeMoney b) (Js.JNum (Stats.totalPrizeMoney stats)))
    (Js.or (questionsAnswered b) (Js.JNum (Stats.questionsAnswered stats)))
    (Js.or (accuracy b) (Js.JNum (Stats.accuracy stats)))
    (Js.or (averageCompletionTime b) (Js.JStr (Stats.averageCompletionTime stats))).

(** The branch that creates the document. *)
Definition create_new (coll : gmap string Stats.t) (b : body) : Assigned.t :=
  let newId := match last_stat_id coll with Some i => i + 1 | None => 1 end in
  Assigned.mk newId
    (Js.str_or (userId b) ("qt" ++ pretty newId))
    (username b)
    (Js.or (gamesPlayed b) (Js.JNum 1))
    (Js.or (gamesCompleted b) (Js.JNum 0))
    (Js.or (totalPrizeMoney b) (Js.JNum 0))
    (Js.or (questionsAnswered b) (Js.JNum 0))
    (Js.or (accuracy b) (Js.JNum 0))
    (Js.or (averageCompletionTime b) (Js.JStr "0:00")).

(** The cast of a value assigned to one of the [Number] paths of the
    [Stats] schema; [None]: the value does not cast. None of the values
    assigned here is null: each is truthy or the fallback of its [||]. *)
Definition number_path (to_number : string → option Z) (v : Js.jsval)
  : option Z :=
  mjoin (Js.cast_number to_number v).

(** The document as the schema casts it, five numbers and a string; [None]
    when one of the values does not cast, which makes [save] reject. *)
Definition cast (to_number : string → option Z) (a : Assigned.t)
  : option Stats.t :=
  gamesPlayed ← number_path to_number (Assigned.gamesPlayed a);
  gamesCompleted ← number_path to_number (Assigned.gamesCompleted a);
  totalPrizeMoney ← number_path to_number (Assigned.totalPrizeMoney a);
  questionsAnswered ← number_path to_number (Assigned.questionsAnswered a);
  accuracy ← number_path to_number (Assigned.accuracy a);
  Some (Stats.mk (Assigned.id a) (Assigned.userId a) (Assigned.username a)
          gamesPlayed gamesCompleted totalPrizeMoney questionsAnswered accuracy
          (Js.to_text (Assigned.averageCompletionTime a))).

Inductive result : Type :=
  | Sent (success : bool) (message : string)
  | Failed (code : Z) (error : string).

(** The handler on the [Stats] collection: the collection after the request
    and the answer. A new document also needs its required [username]. *)
Definition post_stats (to_number : string → option Z)
  (coll : gmap string Stats.t) (b : body) : gmap string Stats.t * result :=
  let saved :=
    match coll !! username b with
    | Some stats => cast to_number (update_existing stats b)
    | None =>
        if Js.required_string (username b)
        then cast to_number (create_new coll b)
        else None
    end in
  match saved with
  | Some stats => (<[username b := stats]> coll,
                   Sent true "Game stats updated successfully")
  | None => (coll, Failed 500 "Server error saving stats")
  end.

End StatsUpdate.

(** ** Sample data *)

(** [Number(s)] for the examples: the value of a string of decimal digits,
    and NaN for a string with any other character, such as the colon of a
    clock time. The examples cast no other strings. *)
Fixpoint digits_value (s : string) (acc : Z) : option Z :=
  match s with
  | EmptyString => Some acc
  | String a s' =>
      let n := Z.of_nat (Ascii.nat_of_ascii a) in
      if (48 <=? n) && (n <=? 57) then digits_value s' (10 * acc + (n - 48))
      else None
  end.

Definition digits_number (s : string) : option Z :=
  if String.eqb s "" then None else digits_value s 0.

Definition demo_question (id : string) : Question.t :=
  Question.mk id "Which one?" ["left"; "right"]%string "right".

Definition demo_files : Files.t :=
  Files.mk {[ "easy"%string := [demo_question "q1"; demo_question "q2"] ]}
  (Some [demo_question "q1"; demo_question "q2"]) (Some ∅).

Definition bob : Complete.identity := Complete.mk_identity "bob" "qt1".

Definition bob_game (correct : Z) : Complete.body :=
  Complete.mk_body (Some 10) correct (Some 16) None Js.JUndefined true.



(** ** Sequences of requests *)

(** Completions handled one after the other; each comes with its [now] and
    its authenticated user. *)
Definition complete_all (to_number : string → option Z)
  (reqs : list (Z * Complete.identity * Complete.body))
  (s : Complete.store) : Complete.store :=
  fold_left (λ s r, (Complete.game_complete to_number r.1.1 s r.1.2 r.2).1)
    reqs s.

(** The prize a completion asks to record. *)
Definition prize_of (r : Z * Complete.identity * Complete.body) : Z :=
  default 0 (Complete.finalPrize r.2).

(** Score submissions merged into the leaderboard document one after the
    other. *)
Definition stats_all (subs : list (Z * string * Scores.gameStats))
  (doc : option (list ScoreEntry.t)) : option (list ScoreEntry.t) :=
  fold_left (λ doc r, Some (Scores.stats_leaderboard r.1.1 doc r.1.2 r.2)) subs doc.

Definition sample_completions : list (Z * Complete.identity * Complete.body) :=
  (λ i : nat,
   (Z.of_nat i, Complete.mk_identity "ann" "qt7",
    Complete.mk_body (Some 16) 12 (Some 16) (Some (1000 * (Z.of_nat i + 1)))
      (Js.JNum 190) true)) <$> seq 0 105.

Definition sample_scores : list (Z * string * Scores.gameStats) :=
  (λ i : nat,
   (Z.of_nat i, ("player" +:+ pretty i)%string,
    Scores.mk_gameStats (10 * Z.of_nat i) 16 12 7 100)) <$> seq 0 105.

Definition ann : Complete.identity := Complete.mk_identity "ann" "qt7".

(** A completion that took 190 seconds, and the same with the time as a
    clock text and without a time. *)
Definition game_with_prize (prize : Z) : Complete.body :=
  Complete.mk_body (Some 16) 12 (Some 16) (Some prize) (Js.JNum 190) true.

Definition clock_game (prize : Z) : Complete.body :=
  Complete.mk_body (Some 16) 12 (Some 16) (Some prize) (Js.JStr "3:10") true.

Definition untimed_game (prize : Z) : Complete.body :=
  Complete.mk_body (Some 16) 12 (Some 16) (Some prize) Js.JUndefined true.

Definition legacy_with_prize (prize : Z) : Legacy.body :=
  Legacy.mk_body "qt7" "ann" prize 16 16 (Js.JNum 190).

(** The board after the 105 sample completions: 100 entries, the lowest
    prize 6000. *)
Definition full_board : Complete.store :=
  complete_all digits_number sample_completions (Complete.mk_store ∅ None).


Definition player_a : Complete.identity := Complete.mk_identity "a" "a".

Definition score_a (score : Z) : Scores.gameStats :=
  Scores.mk_gameStats score 16 12 7 100.

(** A catalog of 18 questions and one outcome of its shuffle. *)
Definition sample_catalog : list Question.t :=
  (λ i : nat, demo_question ("q" +:+ pretty i)) <$> seq 0 18.

Definition sample_catalog_files : Files.t :=
  Files.mk ∅ (Some sample_catalog) (Some ∅).

(** The expected question number, level, time limit and prize of the 16
    positions. *)
Definition game_structure : list (Z * string * Z * option Z) :=
  [ (1, "easy", 10, Some 1000); (2, "easy", 10, Some 2000);
  (3, "easy", 10, Some 3000);
  (4, "medium", 20, Some 5000); (5, "medium", 20, Some 10000);
  (6, "medium", 20, Some 20000); (7, "medium", 20, Some 50000);
  (8, "medium", 20, Some 100000); (9, "medium", 20, Some 200000);
  (10, "hard", 30, Some 500000); (11, "hard", 30, Some 1000000);
  (12, "hard", 30, Some 2000000); (13, "hard", 30, Some 5000000);
  (14, "hard", 30, Some 10000000); (15, "hard", 30, Some 50000000);
  (16, "hard", 30, Some 700000000) ]%string.

(** A catalog with a single question. *)
Definition one_question_files : Files.t :=
  Files.mk ∅ (Some [demo_question "q1"]) (Some ∅).

(** A user known to the primary store, whose [Question] collection is still
    empty, and a data directory with four easy questions. *)
Definition four_easy : list Question.t :=
  [demo_question "q1"; demo_question "q2"; demo_question "q3"; demo_question "q4"].

Definition fresh_store : Progress.store :=
  Progress.mk_store {[ "u"%string := [] ]} []
  (Files.mk {[ "easy"%string := four_easy ]} (Some four_easy) (Some ∅)).


(** ** The file-backed server *)

(** The [gameStats] object of POST /api/stats, as stored in [stats.json]. *)
Module GameStats.
Record t : Type := mk {
  score : Z;
  questionsAnswered : Z;
  correctAnswers : Z;
  wrongAnswers : Z;
  averageTimePerQuestion : Z;
  totalTime : Z;
  level : string;
  lifelinesUsed : gmap string Z;
  lastPlayed : Z
}.
End GameStats.

(** The data directory of the file-backed server: the question files and
    [user_questions.json] of [Files.t], [users.json], [stats.json] and the
    [leaderboard] array of [leaderboard.json]. *)
Module Disk.
Record t : Type := mk {
  files : Files.t;
  users_json : option (gmap string Z);
  stats_json : option (gmap string GameStats.t);
  leaderboard_json : option (list ScoreEntry.t)
}.
End Disk.

Module FileServer.

(** [getUserQuestions(username)]. Without the file the function returns the
    object [{}], which is no array: that result is [None]. *)
Definition getUserQuestions (fs : Files.t) (username : string)
  : option (list string) :=
  match Files.user_questions_json fs with
  | None => None
  | Some data => Some (default [] (data !! username))
  end.

(** [setUserQuestions(username, questions)]. *)
Definition setUserQuestions (fs : Files.t) (username : string)
  (questions : list string) : Files.t :=
  let data := default ∅ (Files.user_questions_json fs) in
  Files.mk (Files.level_json fs) (Files.questions_json fs)
    (Some (<[username := questions]> data)).

(** [getUserScores()]. *)
Definition getUserScores (d : Disk.t) : gmap string Z :=
  default ∅ (Disk.users_json d).

(** [setUserScore(username, score)]. *)
Definition setUserScore (d : Disk.t) (username : string) (score : Z) : Disk.t :=
  let data := default ∅ (Disk.users_json d) in
  Disk.mk (Disk.files d) (Some (<[username := score]> data))
    (Disk.stats_json d) (Disk.leaderboard_json d).

(** [getUserStats(username)]; [None] is [null]. *)
Definition getUserStats (d : Disk.t) (username : string) : option GameStats.t :=
  match Disk.stats_json d with
  | None => None
  | Some stats => stats !! username
  end.

(** [setUserStats(username, stats)]. *)
Definition setUserStats (d : Disk.t) (username : string) (stats : GameStats.t)
  : Disk.t :=
  let data := default ∅ (Disk.stats_json d) in
  Disk.mk (Disk.files d) (Disk.users_json d)
    (Some (<[username := stats]> data)) (Disk.leaderboard_json d).


(** The part of [gameStats] that [updateLeaderboard] reads. *)
Definition leaderboard_fields (g : GameStats.t) : Scores.gameStats :=
  Scores.mk_gameStats (GameStats.score g) (GameStats.questionsAnswered g)
    (GameStats.correctAnswers g) (GameStats.averageTimePerQuestion g)
    (GameStats.totalTime g).

(** The answers of POST /api/questions. [Thrown]: the handler raised and
    sent nothing itself. *)
Inductive questions_response : Type :=
  | Invalid (code : Z) (error : string)
  | Thrown
  | Sent (selected : list Question.t).

(** POST /api/questions. With [userQuestions] the object [{}] the call of
    [includes], or else the spread, raises. *)
Definition post_questions (fs : Files.t) (username level : string) (count : nat)
  : Files.t * questions_response :=
  if negb (Js.includes LEVELS level) then (fs, Invalid 400 "Invalid level")
  else
    let allQuestions := getQuestions fs level in
    match getUserQuestions fs username with
    | None => (fs, Thrown)
    | Some userQuestions =>
        let unusedQuestions :=
          Js.filter (λ q, negb (Js.includes userQuestions (Question.id q)))
            allQuestions in
        let selected := Js.slice0 count unusedQuestions in
        (setUserQuestions fs username
           (userQuestions ++ (Question.id <$> selected)),
         Sent selected)
    end.

(** POST /api/reset-questions. *)
Definition post_reset_questions (fs : Files.t) (username : string) : Files.t :=
  setUserQuestions fs username [].

(** POST /api/score. *)
Definition post_score (d : Disk.t) (username : string) (score : Z) : Disk.t :=
  setUserScore d username score.

(** GET /api/score/:username: [scores[username] || 0]. *)
Definition get_score (d : Disk.t) (username : string) : Z :=
  Js.num_or (getUserScores d !! username) 0.

(** POST /api/stats; [lastPlayed] and the date of the leaderboard entry are
    two readings of the clock. *)
Definition post_stats (lastPlayed now : Z) (d : Disk.t) (username : string)
  (body : GameStats.t) : Disk.t :=
  let gameStats :=
    GameStats.mk (GameStats.score body) (GameStats.questionsAnswered body)
      (GameStats.correctAnswers body) (GameStats.wrongAnswers body)
      (GameStats.averageTimePerQuestion body) (GameStats.totalTime body)
      (GameStats.level body) (GameStats.lifelinesUsed body) lastPlayed in
  let d1 := setUserStats d username gameStats in
  let d2 :=
    Disk.mk (Disk.files d1) (Disk.users_json d1) (Disk.stats_json d1)
      (Some (Scores.updateLeaderboard now (Disk.leaderboard_json d1) username
               (leaderboard_fields gameStats))) in
  setUserScore d2 username (GameStats.score gameStats).

(** The answers of GET /api/stats/:username: [NoStats] is the body with
    [error: 'No stats found'] and the statistics all zero. *)
Inductive stats_response : Type :=
  | NoStats
  | Found (stats : GameStats.t).

(** GET /api/stats/:username. *)
Definition get_stats (d : Disk.t) (username : string) : stats_response :=
  match getUserStats d username with
  | None => NoStats
  | Some stats => Found stats
  end.

(** A request for questions: user, level and count. *)
Record request : Type := mk_request {
  r_username : string;
  r_level : string;
  r_count : nat
}.

(** Requests for questions served in turn; the result is the last state of
    the files and, in order, who was sent which question ids. *)
Fixpoint serve (fs : Files.t) (reqs : list request)
  : Files.t * list (string * list string) :=
  match reqs with
  | [] => (fs, [])
  | r :: reqs' =>
      let '(fs', resp) :=
        post_questions fs (r_username r) (r_level r) (r_count r) in
      let sent :=
        match resp with
        | Sent selected => [(r_username r, Question.id <$> selected)]
        | _ => []
        end in
      let '(fs'', log) := serve fs' reqs' in
      (fs'', sent ++ log)
  end.

(** All question ids sent to [username], in order. *)
Definition sent_to (username : string) (log : list (string * list string))
  : list string :=
  concat (snd <$> Js.filter (λ e, String.eqb e.1 username) log).

End FileServer.

(** ** GET /api/leaderboard over the primary store and the file *)

Module Board.


End Board.

(** A data directory with two levels and a sequence of requests of two
    users. *)
Definition two_level_files : Files.t :=
  Files.mk
    {[ "easy"%string := four_easy;
       "medium"%string := [demo_question "m1"; demo_question "m2"] ]}
    (Some four_easy) (Some ∅).

Definition sample_requests : list FileServer.request :=
  [ FileServer.mk_request "u" "easy" 3; FileServer.mk_request "v" "easy" 2;
    FileServer.mk_request "u" "medium" 1; FileServer.mk_request "u" "easy" 5;
    FileServer.mk_request "u" "expert" 5; FileServer.mk_request "u" "easy" 5 ].

(** An empty data directory and a game result. *)
Definition empty_disk : Disk.t :=
  Disk.mk (Files.mk ∅ None None) None None None.

Definition sample_result (score : Z) : GameStats.t :=
  GameStats.mk score 16 12 4 7 100 "hard" {[ "skip"%string := 1 ]} 0.

(** Three submissions of one user and one of another. *)
Definition sample_submissions : list (Z * string * Scores.gameStats) :=
  [ (1, "u"%string, score_a 300); (2, "v"%string, score_a 500);
    (3, "u"%string, score_a 200); (4, "u"%string, score_a 700) ].

(** A catalog of exactly 16 questions. *)
Definition sixteen_files : Files.t :=
  Files.mk ∅ (Some (take 16 sample_catalog)) (Some ∅).


(** ** Counters over a sequence of completions *)




Definition mixed_completions : list (Z * Complete.identity * Complete.body) :=
  [ (1, ann, game_with_prize 1000); (2, bob, bob_game 8);
    (3, ann, game_with_prize 0); (4, ann, bob_game 5) ].

(** ** POST /api/stats over the primary store and the files *)

Module StatsPost.

(** The [Stats] collection by user name, the [score] of the [User]
    documents, the [entries] of the leaderboard document and the data
    directory. *)
Record store : Type := mk_store {
  stats : gmap string GameStats.t;
  scores : gmap string Z;
  entries : option (list ScoreEntry.t);
  disk : Disk.t
}.

(** [body] with [lastPlayed] set. *)
Definition played_at (lastPlayed : Z) (body : GameStats.t) : GameStats.t :=
  GameStats.mk (GameStats.score body) (GameStats.questionsAnswered body)
    (GameStats.correctAnswers body) (GameStats.wrongAnswers body)
    (GameStats.averageTimePerQuestion body) (GameStats.totalTime body)
    (GameStats.level body) (GameStats.lifelinesUsed body) lastPlayed.

(** The handler: the store after the request and whether it answered
    [{ success: true }] rather than 500. [t0] is the clock when [gameStats]
    is built, [t1] when an existing [Stats] document is updated, [t2] when
    the leaderboard entry of the document is built and [t3] when
    [updateLeaderboard] builds the one of the file. For a user name without
    [User] document the handler saves [new User({ username, score,
    lastActivity })], which the schema rejects for want of [email] and
    [password]: the statistics are saved by then, and nothing after them
    is. *)
Definition post_stats (t0 t1 t2 t3 : Z) (s : store) (username : string)
  (body : GameStats.t) : store * bool :=
  let gameStats := played_at t0 body in
  let stats' :=
    match stats s !! username with
    | Some _ => <[username := played_at t1 body]> (stats s)
    | None => <[username := gameStats]> (stats s)
    end in
  match scores s !! username with
  | None => (mk_store stats' (scores s) (entries s) (disk s), false)
  | Some _ =>
      let scores' := <[username := GameStats.score body]> (scores s) in
      let entries' :=
        Scores.stats_leaderboard t2 (entries s) username
          (FileServer.leaderboard_fields gameStats) in
      let d1 := FileServer.setUserStats (disk s) username gameStats in
      let d2 :=
        Disk.mk (Disk.files d1) (Disk.users_json d1) (Disk.stats_json d1)
          (Some (Scores.updateLeaderboard t3 (Disk.leaderboard_json d1) username
                   (FileServer.leaderboard_fields gameStats))) in
      let d3 := FileServer.setUserScore d2 username (GameStats.score gameStats) in
      (mk_store stats' scores' (Some entries') d3, true)
  end.

End StatsPost.




(** A store whose collection holds the four easy questions. *)
Definition stocked_store : Progress.store :=
  Progress.mk_store {[ "u"%string := ["q1"%string] ]}
    ((λ q, Progress.Doc.mk (Question.id q) (Question.question q)
             (Question.options q) (Question.answer q) (Some "easy"%string)
             "general") <$> four_easy)
    (Files.mk {[ "easy"%string := four_easy ]} (Some four_easy) (Some ∅)).

(** ** POST /api/questions/random *)

Module Random.

(** The plain object built from a question of [questions.json];
    [category_of] reads the [category] key of the file's question, which
    [Question.t] does not carry. *)
Definition from_json (category_of : Question.t → option string)
  (q : Question.t) : Progress.Doc.t :=
  Progress.Doc.mk (Question.id q) (Question.question q) (Question.options q)
    (Question.answer q) None (Js.str_or (category_of q) "general").

(** The questions to draw from: the collection, joined by the file's
    questions with ids the collection lacks when the collection holds fewer
    than [count]. *)
Definition pool (category_of : Question.t → option string)
  (docs : list Progress.Doc.t) (fs : Files.t) (count : nat)
  : list Progress.Doc.t :=
  let questions := docs in
  if (length questions <? count)%nat then
    let allQuestions := getAllQuestions fs in
    let jsonQuestions := from_json category_of <$> allQuestions in
    let existingIds := Progress.Doc.id <$> questions in
    let newQuestions :=
      Js.filter (λ q, negb (Js.includes existingIds (Progress.Doc.id q)))
        jsonQuestions in
    questions ++ newQuestions
  else questions.

(** The handler; [shuffled] is the outcome of the shuffle of the pool and
    [count] defaults to 16. *)
Definition questions_random (shuffled : list Progress.Doc.t)
  (count : option nat) : list Progress.Doc.t :=
  Js.slice0 (default 16%nat count) shuffled.

End Random.
(** * Properties *)

(** ** Array primitives *)

Section ArrayFacts.
Context {A : Type}.
Implicit Types (p : A → bool) (l : list A).

Lemma find_Some p l x : Js.find p l = Some x → x ∈ l ∧ p x = true.
Proof.
  induction l as [|y l IH]; simpl; [done|].
  destruct (p y) eqn:Hy.
  - intros [= ->]. split; [left | done].
  - intros H. destruct (IH H). split; [by right | done].
Qed.

Lemma find_None p l : Js.find p l = None ↔ ∀ x, x ∈ l → p x = false.
Proof.
  induction l as [|y l IH]; simpl.
  - split; [intros _ x Hx; inversion Hx | done].
  - destruct (p y) eqn:Hy.
    + split; [done|]. intros H. specialize (H y (list_elem_of_here _ _)). congruence.
    + rewrite IH. split.
      * intros H x Hx. apply elem_of_cons in Hx as [->|Hx]; auto.
      * intros H x Hx. apply H. by right.
Qed.

Lemma some_true p l : Js.some p l = true ↔ ∃ x, x ∈ l ∧ p x = true.
Proof.
  induction l as [|y l IH]; simpl.
  - split; [done | intros (x & Hx & _); inversion Hx].
  - rewrite orb_true_iff, IH. split.
    + intros [Hy | (x & Hx & Hp)]; [exists y | exists x]; split;
        auto using list_elem_of_here.
      by right.
    + intros (x & Hx & Hp). apply elem_of_cons in Hx as [->|Hx]; eauto.
Qed.

Lemma some_false p l : Js.some p l = false ↔ ∀ x, x ∈ l → p x = false.
Proof.
  rewrite <- not_true_iff_false, some_true. split.
  - intros H x Hx. destruct (p x) eqn:Hp; [|done]. destruct H; eauto.
  - intros H (x & Hx & Hp). rewrite (H x Hx) in Hp. done.
Qed.

Lemma elem_of_filter p l x : x ∈ Js.filter p l ↔ x ∈ l ∧ p x = true.
Proof.
  induction l as [|y l IH]; simpl.
  - split; [intros H; inversion H | intros [H _]; inversion H].
  - destruct (p y) eqn:Hy; rewrite ?elem_of_cons, IH.
    + split; [intros [->|[? ?]]; auto | intros [[->|?] ?]; auto].
    + split; [intros [? ?]; auto | intros [[->|?] ?]; [congruence | auto]].
Qed.

Lemma filter_fmap_NoDup {B : Type} (f : A → B) p l :
  NoDup (f <$> l) → NoDup (f <$> Js.filter p l).
Proof.
  induction l as [|y l IH]; simpl; [done|].
  rewrite NoDup_cons. intros [Hy Hl].
  destruct (p y); [|auto]. simpl. apply NoDup_cons. split; [|auto].
  intros Hin. apply Hy. apply list_elem_of_fmap in Hin as (z & -> & Hz).
  apply elem_of_filter in Hz as [Hz _]. apply list_elem_of_fmap. eauto.
Qed.

(** [findIndex] yields [-1] exactly when no element qualifies, and otherwise
    the position of the first element that does. *)
Lemma findIndex_from_spec p l i :
  (Js.findIndex_from p l i = -1 ∧ ∀ x, x ∈ l → p x = false) ∨
  (∃ n x, Js.findIndex_from p l i = i + Z.of_nat n ∧ l !! n = Some x ∧
          p x = true ∧ ∀ y, y ∈ take n l → p y = false).
Proof.
  revert i. induction l as [|y l IH]; intros i; simpl.
  - left. split; [done|]. intros x Hx. inversion Hx.
  - destruct (p y) eqn:Hy.
    + right. exists 0%nat, y. simpl. split_and!; [lia | done | done |].
      intros z Hz. inversion Hz.
    + destruct (IH (i + 1)) as [[He Hall] | (n & x & He & Hn & Hx & Hpre)].
      * left. split; [done|]. intros x Hx. apply elem_of_cons in Hx as [->|Hx]; auto.
      * right. exists (S n), x. simpl. split_and!; [lia | done | done |].
        intros z Hz. apply elem_of_cons in Hz as [->|Hz]; auto.
Qed.

Lemma findIndex_spec p l :
  (Js.findIndex p l = -1 ∧ ∀ x, x ∈ l → p x = false) ∨
  (∃ n x, Js.findIndex p l = Z.of_nat n ∧ l !! n = Some x ∧
          p x = true ∧ ∀ y, y ∈ take n l → p y = false).
Proof. apply (findIndex_from_spec p l 0). Qed.

End ArrayFacts.

Lemma includes_true (l : list string) (s : string) :
  Js.includes l s = true ↔ s ∈ l.
Proof.
  unfold Js.includes. rewrite some_true. split.
  - intros (x & Hx & He). apply String.eqb_eq in He. by subst.
  - intros H. exists s. split; [done | apply String.eqb_refl].
Qed.

Lemma includes_false (l : list string) (s : string) :
  Js.includes l s = false ↔ s ∉ l.
Proof. rewrite <- not_true_iff_false, includes_true. done. Qed.

(** ** check-answer *)

Lemma level_is_valid (level : string) :
  level ∈ LEVELS → Js.includes LEVELS level = true.
Proof. apply includes_true. Qed.

(** C8. In the MongoDB-backed server of [index.js], which declares neither
    [LEVELS] nor [getQuestions], POST /api/check-answer raises a
    ReferenceError on its first statement for every request: it never answers
    "Question not found" for an unknown question id, and never reports
    whether the submitted answer is the stored one. *)
Theorem check_answer_raises_reference_error
  (fs : Files.t) (level questionId answer : string) :
  Answers.check_answer_in Answers.primary_scope fs level questionId answer
    = Answers.ReferenceError "LEVELS"
  ∧ (∀ r, Answers.check_answer_in Answers.primary_scope fs level questionId
            answer ≠ Answers.Answered r)
  ∧ Answers.check_answer_in Answers.primary_scope demo_files "easy" "q9" "right"
      ≠ Answers.Answered (Answers.Status 404 "Question not found")
  ∧ Answers.check_answer_in Answers.declaring_scope demo_files "easy" "q9" "right"
      = Answers.Answered (Answers.Status 404 "Question not found").
Proof. split_and!; [reflexivity | intros r; discriminate | discriminate | reflexivity]. Qed.



(** ** Game completion: statistics *)

(** The counters of an existing record after a completion. *)
Lemma update_stats_counters (st : Stats.t) (b : Complete.body) :
  let st' := Complete.update_stats st b in
  Stats.gamesPlayed st' = Stats.gamesPlayed st + 1
  ∧ Stats.gamesCompleted st'
      = Stats.gamesCompleted st + (if Complete.gameCompleted b then 1 else 0)
  ∧ Stats.totalPrizeMoney st'
      = Stats.totalPrizeMoney st + default 0 (Complete.finalPrize b)
  ∧ Stats.questionsAnswered st'
      = Stats.questionsAnswered st + default 0 (Complete.questionsAnswered b).
Proof.
  simpl. split_and!; [done | | |].
  - destruct (Complete.gameCompleted b); lia.
  - destruct (Complete.finalPrize b) as [p|]; simpl; [|done].
    destruct (Z.eqb_spec p 0); congruence.
  - destruct (Complete.questionsAnswered b) as [q|]; simpl; [|done].
    destruct (Z.eqb_spec q 0); congruence.
Qed.

(** The accuracy of an existing record after a completion: the correct
    answers of this game alone over all questions answered so far. *)
Lemma update_stats_accuracy (st : Stats.t) (b : Complete.body) :
  let st' := Complete.update_stats st b in
  0 < Stats.questionsAnswered st' →
  Stats.accuracy st'
    = Js.round_pct (Complete.correctAnswers b) (Stats.questionsAnswered st').
Proof.
  simpl. intros H. apply Z.ltb_lt in H. by rewrite H.
Qed.

(** C1. Two completions for "bob", 8 correct of 10 and then 5 correct of 10:
    the record holds two games and 20 answered questions, and its accuracy is
    25, the 5 correct answers of the second game over the 20 questions, where
    13 correct of 20 would be 65. *)
Theorem record_completion_bob_accuracy (to_number : string → option Z) (now : Z) :
  let s0 := Complete.mk_store ∅ None in
  let s1 := (Complete.game_complete to_number now s0 bob (bob_game 8)).1 in
  let s2 := (Complete.game_complete to_number now s1 bob (bob_game 5)).1 in
  (Stats.accuracy <$> Complete.stats s1 !! "bob"%string) = Some 80
  ∧ (Stats.gamesPlayed <$> Complete.stats s2 !! "bob"%string) = Some 2
  ∧ (Stats.questionsAnswered <$> Complete.stats s2 !! "bob"%string) = Some 20
  ∧ (Stats.accuracy <$> Complete.stats s2 !! "bob"%string) = Some 25
  ∧ Js.round_pct (8 + 5) (10 + 10) = 65.
Proof. vm_compute. done. Qed.



(** ** Statistics update *)







(** ** The stable descending sort *)

Section SortFacts.
Context {A : Type} (rank : A → Z).
Implicit Types (x y : A) (l : list A).

Local Abbreviation insert := (Js.insert_desc rank).
Local Abbreviation sort := (Js.sort_desc rank).
Local Abbreviation sorted := (StronglySorted (Js.desc rank)).

Lemma insert_desc_perm x l : insert x l ≡ₚ x :: l.
Proof.
  induction l as [|y l IH]; simpl; [done|].
  destruct (rank y <? rank x); [done|].
  rewrite IH. apply Permutation_swap.
Qed.

Lemma sort_desc_snoc l x : sort (l ++ [x]) = insert x (sort l).
Proof. unfold Js.sort_desc. by rewrite fold_left_app. Qed.

Lemma sort_desc_perm l : sort l ≡ₚ l.
Proof.
  induction l as [|x l IH] using rev_ind; [done|].
  rewrite sort_desc_snoc, insert_desc_perm, IH.
  by rewrite Permutation_cons_append.
Qed.

Lemma sort_desc_length l : length (sort l) = length l.
Proof. by rewrite sort_desc_perm. Qed.

Lemma insert_desc_sorted x l : sorted l → sorted (insert x l).
Proof.
  induction 1 as [|y l Hl IH Hy]; simpl.
  - repeat constructor.
  - destruct (Z.ltb_spec (rank y) (rank x)) as [Hlt|Hge].
    + constructor; [by constructor|].
      constructor; [unfold Js.desc; lia|].
      eapply Forall_impl; [exact Hy|]. unfold Js.desc. intros z Hz; lia.
    + constructor; [done|].
      rewrite insert_desc_perm. by constructor.
Qed.

Lemma sort_desc_sorted l : sorted (sort l).
Proof.
  induction l as [|x l IH] using rev_ind; [constructor|].
  rewrite sort_desc_snoc. by apply insert_desc_sorted.
Qed.

(** An element at most as high as all of [l] goes to the end. *)
Lemma insert_desc_last x l :
  Forall (λ y, rank x ≤ rank y) l → insert x l = l ++ [x].
Proof.
  induction 1 as [|y l Hy Hl IH]; simpl; [done|].
  destruct (Z.ltb_spec (rank y) (rank x)); [lia|]. by rewrite IH.
Qed.

(** Sorting a sorted array leaves it as it is. *)
Lemma sort_desc_sorted_id l : sorted l → sort l = l.
Proof.
  induction l as [|x l IH] using rev_ind; [done|].
  intros Hs. rewrite sort_desc_snoc.
  rewrite IH by (by eapply StronglySorted_app_1_l).
  apply insert_desc_last. apply Forall_forall. intros y Hy.
  apply (StronglySorted_app_1_elem_of _ _ _ y x Hs Hy). by left.
Qed.

Lemma filter_rank_below (r : Z) l :
  Forall (λ y, rank y < r) l → Js.filter (λ y, rank y =? r) l = [].
Proof.
  induction 1 as [|y l Hy Hl IH]; simpl; [done|].
  destruct (Z.eqb_spec (rank y) r); [lia | done].
Qed.

(** Stability: elements of one rank keep their order. *)
Lemma insert_desc_stable (r : Z) x l :
  sorted l →
  Js.filter (λ y, rank y =? r) (insert x l)
    = Js.filter (λ y, rank y =? r) l ++ (if rank x =? r then [x] else []).
Proof.
  induction 1 as [|y l Hl IH Hy]; simpl; [by destruct (rank x =? r)|].
  destruct (Z.ltb_spec (rank y) (rank x)) as [Hlt|Hge]; simpl.
  - destruct (Z.eqb_spec (rank x) r) as [Hx|Hx]; [|by rewrite app_nil_r].
    destruct (Z.eqb_spec (rank y) r); [lia|].
    rewrite filter_rank_below; [done|].
    eapply Forall_impl; [exact Hy|]. unfold Js.desc. intros z Hz; lia.
  - rewrite IH. by destruct (rank y =? r).
Qed.

Lemma sort_desc_stable (r : Z) l :
  Js.filter (λ y, rank y =? r) (sort l) = Js.filter (λ y, rank y =? r) l.
Proof.
  induction l as [|x l IH] using rev_ind; [done|].
  rewrite sort_desc_snoc, insert_desc_stable by apply sort_desc_sorted.
  rewrite IH. clear IH. induction l as [|y l IH]; simpl.
  - by destruct (rank x =? r).
  - destruct (rank y =? r); simpl; by rewrite IH.
Qed.

(** Keeping the first [n] before or after an insertion makes no difference
    to the first [n]. *)
Lemma take_insert_desc_take (n : nat) x l :
  take n (insert x (take n l)) = take n (insert x l).
Proof.
  revert n. induction l as [|y l IH]; intros [|n]; simpl; try done.
  destruct (rank y <? rank x); simpl.
  - f_equal. destruct n as [|n]; simpl; [done|].
    rewrite take_take. do 2 f_equal. lia.
  - by rewrite IH.
Qed.

Lemma keep_top_100_take l : keep_top_100 l = take 100 l.
Proof.
  unfold keep_top_100, Js.slice0.
  destruct (Nat.ltb_spec 100 (length l)); [done|]. by rewrite take_ge.
Qed.

Lemma keep_top_100_length l : (length (keep_top_100 l) ≤ 100)%nat.
Proof. rewrite keep_top_100_take, length_take. lia. Qed.

Lemma keep_top_100_sorted l : sorted l → sorted (keep_top_100 l).
Proof.
  rewrite keep_top_100_take. intros Hs.
  rewrite <- (take_drop 100 l) in Hs. by eapply StronglySorted_app_1_l.
Qed.

(** Pushing one element on a board that is the top 100 of [l], sorting and
    truncating gives the top 100 of [l] with that element. *)
Lemma push_top_100 l x :
  keep_top_100 (sort (keep_top_100 (sort l) ++ [x]))
    = keep_top_100 (sort (l ++ [x])).
Proof.
  rewrite !keep_top_100_take, !sort_desc_snoc.
  rewrite sort_desc_sorted_id.
  - apply take_insert_desc_take.
  - rewrite <- keep_top_100_take. apply keep_top_100_sorted, sort_desc_sorted.
Qed.

End SortFacts.

(** Ranks of a sorted array are the sorted ranks. *)
Lemma insert_desc_ranks {A : Type} (rank : A → Z) (x : A) (l : list A) :
  rank <$> Js.insert_desc rank x l
    = Js.insert_desc (λ z : Z, z) (rank x) (rank <$> l).
Proof.
  induction l as [|y l IH]; simpl; [done|].
  destruct (rank y <? rank x); simpl; [done|]. f_equal. apply IH.
Qed.

Lemma sort_desc_ranks {A : Type} (rank : A → Z) (l : list A) :
  rank <$> Js.sort_desc rank l = Js.sort_desc (λ z : Z, z) (rank <$> l).
Proof.
  induction l as [|x l IH] using rev_ind; [done|].
  rewrite fmap_app. change (rank <$> [x]) with [rank x].
  by rewrite !sort_desc_snoc, insert_desc_ranks, IH.
Qed.

(** ** The leaderboard ranked by prize *)

Lemma add_entry_sorted (board : list Entry.t) (e : Entry.t) :
  StronglySorted (Js.desc Entry.prizeWon) (add_entry board e).
Proof. apply keep_top_100_sorted, sort_desc_sorted. Qed.

Lemma add_entry_length (board : list Entry.t) (e : Entry.t) :
  (length (add_entry board e) ≤ 100)%nat.
Proof. apply keep_top_100_length. Qed.

Lemma add_entry_prizes (board : list Entry.t) (e : Entry.t) :
  Entry.prizeWon <$> add_entry board e
    = keep_top_100 (Js.sort_desc (λ z : Z, z)
                      ((Entry.prizeWon <$> board) ++ [Entry.prizeWon e])).
Proof.
  unfold add_entry. rewrite !keep_top_100_take, fmap_take, sort_desc_ranks.
  by rewrite fmap_app.
Qed.

(** A completion with a positive prize whose entry the schema accepts turns
    the prizes on the board into the top 100 of the old prizes and the new
    one. *)
Lemma game_complete_prizes to_number now s u b p :
  Complete.finalPrize b = Some p → 0 < p →
  is_Some (Complete.entry_time to_number b) →
  Entry.prizeWon <$>
    default [] (Complete.leaderboard (Complete.game_complete to_number now s u b).1)
  = keep_top_100 (Js.sort_desc (λ z : Z, z)
      ((Entry.prizeWon <$> default [] (Complete.leaderboard s)) ++ [p])).
Proof.
  intros Hb Hp [time Htime]. unfold Complete.game_complete. rewrite Hb, Htime.
  simpl. apply Z.ltb_lt in Hp. rewrite Hp. simpl. by rewrite add_entry_prizes.
Qed.

Lemma complete_all_prizes to_number reqs :
  Forall (λ r, Complete.finalPrize r.2 = Some (prize_of r) ∧ 0 < prize_of r
               ∧ is_Some (Complete.entry_time to_number r.2)) reqs →
  Entry.prizeWon <$>
    default [] (Complete.leaderboard
                  (complete_all to_number reqs (Complete.mk_store ∅ None)))
  = keep_top_100 (Js.sort_desc (λ z : Z, z) (prize_of <$> reqs)).
Proof.
  induction reqs as [|r reqs IH] using rev_ind; intros Hall; [done|].
  apply Forall_app in Hall as [Hreqs Hr].
  apply Forall_singleton in Hr as (Hr & Hp & Htime).
  unfold complete_all. rewrite fold_left_app. simpl.
  rewrite (game_complete_prizes _ _ _ _ _ _ Hr Hp Htime).
  fold (complete_all to_number reqs (Complete.mk_store ∅ None)).
  rewrite IH by done. rewrite fmap_app. apply push_top_100.
Qed.

(** Of 105 distinct scores the top 100 are kept and the five lowest are
    gone. *)
Lemma top_100_of_105 (scores : list Z) :
  NoDup scores → length scores = 105%nat →
  let kept := keep_top_100 (Js.sort_desc (λ z : Z, z) scores) in
  length kept = 100%nat
  ∧ ∃ dropped, length dropped = 5%nat ∧ scores ≡ₚ kept ++ dropped
      ∧ ∀ x y, x ∈ dropped → y ∈ kept → x < y ∧ x ∉ kept.
Proof.
  intros Hnd Hlen. simpl. rewrite keep_top_100_take.
  set (s := Js.sort_desc (λ z : Z, z) scores).
  assert (s ≡ₚ scores) as Hperm by apply sort_desc_perm.
  assert (length s = 105%nat) as Hs by (by rewrite Hperm).
  assert (NoDup (take 100 s ++ drop 100 s)) as Hnd'.
  { rewrite take_drop. by rewrite Hperm. }
  assert (StronglySorted (Js.desc (λ z : Z, z)) (take 100 s ++ drop 100 s)) as Hsorted.
  { rewrite take_drop. apply sort_desc_sorted. }
  split; [rewrite length_take; lia|].
  exists (drop 100 s). split_and!.
  - rewrite length_drop. lia.
  - by rewrite take_drop.
  - intros x y Hx Hy.
    pose proof (StronglySorted_app_1_elem_of _ _ _ y x Hsorted Hy Hx) as Hle.
    unfold Js.desc in Hle.
    apply NoDup_app in Hnd' as (_ & Hdisj & _).
    split; [|intros Hin; by apply (Hdisj x)].
    destruct (decide (x = y)) as [->|]; [|lia]. by destruct (Hdisj y).
Qed.

(** ** The leaderboard ranked by score *)

Lemma elem_of_keep_top_100 {A : Type} (rank : A → Z) (l : list A) (x : A) :
  x ∈ keep_top_100 (Js.sort_desc rank l) → x ∈ l.
Proof.
  rewrite keep_top_100_take. intros Hx.
  apply (subseteq_take 100) in Hx. by rewrite sort_desc_perm in Hx.
Qed.

Lemma updateLeaderboard_stats_leaderboard now doc username g :
  Scores.updateLeaderboard now doc username g
    = Scores.stats_leaderboard now doc username g.
Proof. reflexivity. Qed.

Lemma stats_leaderboard_sorted now doc username g :
  StronglySorted (Js.desc ScoreEntry.score)
    (Scores.stats_leaderboard now doc username g).
Proof. apply keep_top_100_sorted, sort_desc_sorted. Qed.

Lemma stats_leaderboard_length now doc username g :
  (length (Scores.stats_leaderboard now doc username g) ≤ 100)%nat.
Proof. apply keep_top_100_length. Qed.

(** A user name that is not on the board is pushed. *)
Lemma stats_leaderboard_fresh now doc username g :
  username ∉ (ScoreEntry.username <$> default [] doc) →
  Scores.stats_leaderboard now doc username g
    = keep_top_100 (Js.sort_desc ScoreEntry.score
        (default [] doc ++
           [ScoreEntry.mk username (Scores.score g) (Scores.questionsAnswered g)
              (Scores.correctAnswers g) (Scores.averageTimePerQuestion g)
              (Scores.totalTime g) now])).
Proof.
  intros Hfresh. unfold Scores.stats_leaderboard.
  destruct (findIndex_spec
              (λ entry, String.eqb (ScoreEntry.username entry) username)
              (default [] doc)) as [[-> _] | (n & x & _ & Hn & Hx & _)]; [done|].
  destruct Hfresh. apply String.eqb_eq in Hx as <-.
  apply list_elem_of_fmap. exists x. split; [done|]. by eapply list_elem_of_lookup_2.
Qed.

Lemma stats_all_scores subs :
  NoDup ((λ r, r.1.2) <$> subs) →
  let board := default [] (stats_all subs None) in
  ScoreEntry.score <$> board
    = keep_top_100 (Js.sort_desc (λ z : Z, z) ((λ r, Scores.score r.2) <$> subs))
  ∧ ∀ name, name ∈ (ScoreEntry.username <$> board) →
      name ∈ ((λ r, r.1.2) <$> subs).
Proof.
  induction subs as [|r subs IH] using rev_ind; intros Hnd; simpl.
  - split; [done|]. intros name H. inversion H.
  - rewrite fmap_app in Hnd. apply NoDup_app in Hnd as (Hnd & Hdisj & _).
    destruct (IH Hnd) as [IHscores IHnames]. clear IH.
    unfold stats_all. rewrite fold_left_app. simpl.
    fold (stats_all subs None).
    assert (r.1.2 ∉ ScoreEntry.username <$> default [] (stats_all subs None))
      as Hfresh.
    { intros Hin. apply IHnames in Hin. apply (Hdisj _ Hin). simpl. left. }
    rewrite (stats_leaderboard_fresh _ _ _ _ Hfresh). split.
    + rewrite !keep_top_100_take, fmap_take, sort_desc_ranks, !fmap_app.
      simpl. rewrite IHscores, <- !keep_top_100_take. apply push_top_100.
    + intros name Hin. apply list_elem_of_fmap in Hin as (e & -> & He).
      apply elem_of_keep_top_100 in He. rewrite fmap_app.
      apply elem_of_app in He as [He | He%list_elem_of_singleton].
      * apply elem_of_app. left. apply IHnames. apply list_elem_of_fmap. eauto.
      * subst e. apply elem_of_app. right. simpl. left.
Qed.

(** C4. Whatever the board and the submission, the list stored by the
    prize-ranked handlers and by the score-ranked merge is in descending
    order of its ranking field and has at most 100 entries; a request of a
    prize-ranked handler that stores no entry leaves the document as it
    was. Of 105
    completions with distinct positive prizes whose entries the schema
    accepts (their [completionTime] casts to a number), handled in turn from
    an empty board, exactly 100 entries remain and the five prizes that are
    missing lie below every prize on the board; the same holds for 105 score
    submissions of distinct users with distinct scores. *)
Theorem leaderboard_sorted_top_100
  (to_number : string → option Z)
  (reqs : list (Z * Complete.identity * Complete.body))
  (subs : list (Z * string * Scores.gameStats)) :
  length reqs = 105%nat →
  NoDup (prize_of <$> reqs) →
  Forall (λ r, Complete.finalPrize r.2 = Some (prize_of r) ∧ 0 < prize_of r
               ∧ is_Some (Complete.entry_time to_number r.2)) reqs →
  length subs = 105%nat →
  NoDup ((λ r, r.1.2) <$> subs) →
  NoDup ((λ r, Scores.score r.2) <$> subs) →
  (∀ board e,
     StronglySorted (Js.desc Entry.prizeWon) (add_entry board e)
     ∧ (length (add_entry board e) ≤ 100)%nat)
  ∧ (∀ now doc username g,
     StronglySorted (Js.desc ScoreEntry.score)
       (Scores.stats_leaderboard now doc username g)
     ∧ (length (Scores.stats_leaderboard now doc username g) ≤ 100)%nat)
  ∧ (∀ now s u b,
     let stored := Complete.leaderboard
                     (Complete.game_complete to_number now s u b).1 in
     stored = Complete.leaderboard s
     ∨ ∃ board, stored = Some board
         ∧ StronglySorted (Js.desc Entry.prizeWon) board
         ∧ (length board ≤ 100)%nat)
  ∧ (∀ now doc lb,
     let stored := (Legacy.complete_game to_number now doc lb).1 in
     stored = doc
     ∨ ∃ board, stored = Some board
         ∧ StronglySorted (Js.desc Entry.prizeWon) board
         ∧ (length board ≤ 100)%nat)
  ∧ (let board :=
       default [] (Complete.leaderboard
                     (complete_all to_number reqs (Complete.mk_store ∅ None))) in
     length board = 100%nat
     ∧ ∃ dropped, length dropped = 5%nat
         ∧ prize_of <$> reqs ≡ₚ (Entry.prizeWon <$> board) ++ dropped
         ∧ ∀ x y, x ∈ dropped → y ∈ (Entry.prizeWon <$> board) →
             x < y ∧ x ∉ (Entry.prizeWon <$> board))
  ∧ (let board := default [] (stats_all subs None) in
     length board = 100%nat
     ∧ ∃ dropped, length dropped = 5%nat
         ∧ (λ r, Scores.score r.2) <$> subs
             ≡ₚ (ScoreEntry.score <$> board) ++ dropped
         ∧ ∀ x y, x ∈ dropped → y ∈ (ScoreEntry.score <$> board) →
             x < y ∧ x ∉ (ScoreEntry.score <$> board)).
Proof.
  intros Hreqs Hprizes Hpos Hsubs Hnames Hscores. split_and!.
  - intros board e. split; [apply add_entry_sorted | apply add_entry_length].
  - intros now doc username g.
    split; [apply stats_leaderboard_sorted | apply stats_leaderboard_length].
  - intros now s u b. unfold Complete.game_complete.
    destruct (Js.gt0 _); [|by left].
    destruct (Complete.entry_time _ _); [|by left].
    right. eexists. split; [reflexivity|].
    split; [apply add_entry_sorted | apply add_entry_length].
  - intros now doc lb. unfold Legacy.complete_game.
    destruct (Legacy.entry_time _ _); [|by left].
    destruct (_ && _); [|by left].
    right. eexists. split; [reflexivity|].
    split; [apply add_entry_sorted | apply add_entry_length].
  - simpl. rewrite <- (length_fmap Entry.prizeWon), complete_all_prizes by done.
    apply top_100_of_105; [done | by rewrite length_fmap].
  - simpl. rewrite <- (length_fmap ScoreEntry.score).
    destruct (stats_all_scores subs Hnames) as [-> _].
    apply top_100_of_105; [done | by rewrite length_fmap].
Qed.

Lemma leaderboard_sorted_top_100_witness :
  length (default [] (Complete.leaderboard
            (complete_all digits_number sample_completions
               (Complete.mk_store ∅ None))))
    = 100%nat
  ∧ length (default [] (stats_all sample_scores None)) = 100%nat.
Proof.
  assert (length sample_completions = 105%nat) as H1 by reflexivity.
  assert (NoDup (prize_of <$> sample_completions)) as H2.
  { apply (bool_decide_unpack _). vm_compute. exact I. }
  assert (Forall (λ r, Complete.finalPrize r.2 = Some (prize_of r) ∧ 0 < prize_of r
                       ∧ is_Some (Complete.entry_time digits_number r.2))
            sample_completions) as H3.
  { apply (bool_decide_unpack _). vm_compute. exact I. }
  assert (length sample_scores = 105%nat) as H4 by reflexivity.
  assert (NoDup ((λ r, r.1.2) <$> sample_scores)) as H5.
  { apply (bool_decide_unpack _). vm_compute. exact I. }
  assert (NoDup ((λ r, Scores.score r.2) <$> sample_scores)) as H6.
  { apply (bool_decide_unpack _). vm_compute. exact I. }
  destruct (leaderboard_sorted_top_100 digits_number sample_completions
              sample_scores H1 H2 H3 H4 H5 H6)
    as (_ & _ & _ & _ & [Ha _] & [Hb _]).
  split; [exact Ha | exact Hb].
Defined.

(** ** The reported leaderboard position *)

Lemma fold_left_max_ge (l : list Z) (a : Z) :
  a ≤ fold_left Z.max l a ∧ ∀ x, x ∈ l → x ≤ fold_left Z.max l a.
Proof.
  revert a. induction l as [|y l IH]; intros a; simpl.
  - split; [lia|]. intros x Hx. inversion Hx.
  - destruct (IH (Z.max a y)) as [Ha Hl]. split; [lia|].
    intros x Hx. apply elem_of_cons in Hx as [->|Hx]; [lia | auto].
Qed.

Lemma max_of_ge (l : list Z) (x : Z) : x ∈ l → x ≤ Js.max_of l.
Proof.
  destruct l as [|a l]; simpl; [intros H; inversion H|].
  destruct (fold_left_max_ge l a) as [Ha Hl].
  intros Hx. apply elem_of_cons in Hx as [->|Hx]; auto.
Qed.

(** The id given to a new entry is above every id on the board. *)
Lemma next_entry_id_fresh (board : list Entry.t) (e : Entry.t) :
  e ∈ board → Entry.id e < next_entry_id board.
Proof.
  intros He. unfold next_entry_id.
  assert (Entry.id e ≤ Js.max_of (Entry.id <$> board)) as Hle.
  { apply max_of_ge, list_elem_of_fmap. eauto. }
  destruct (Nat.ltb_spec 0 (length board)) as [_|Hlen]; [lia|].
  destruct board; [inversion He | simpl in Hlen; lia].
Qed.

Section FilterFacts.
Context {A : Type}.
Implicit Types (p : A → bool) (l : list A).

Lemma filter_Permutation p l l' :
  l ≡ₚ l' → Js.filter p l ≡ₚ Js.filter p l'.
Proof.
  induction 1 as [|x l l' _ IH|x y l|l l' l'' _ IH1 _ IH2]; simpl.
  - done.
  - destruct (p x); by rewrite IH.
  - destruct (p x), (p y); try done. apply Permutation_swap.
  - by rewrite IH1.
Qed.

Lemma filter_all_false p l : (∀ x, x ∈ l → p x = false) → Js.filter p l = [].
Proof.
  induction l as [|y l IH]; simpl; [done|]. intros H.
  rewrite (H y) by left. apply IH. intros x Hx. apply H. by right.
Qed.

Lemma findIndex_from_none p l i :
  (∀ x, x ∈ l → p x = false) → Js.findIndex_from p l i = -1.
Proof.
  revert i. induction l as [|y l IH]; intros i H; simpl; [done|].
  rewrite (H y) by left. apply IH. intros x Hx. apply H. by right.
Qed.

Lemma findIndex_from_app_cons p l1 x l2 i :
  (∀ y, y ∈ l1 → p y = false) → p x = true →
  Js.findIndex_from p (l1 ++ x :: l2) i = i + Z.of_nat (length l1).
Proof.
  revert i. induction l1 as [|y l1 IH]; intros i H Hx; simpl.
  - rewrite Hx. lia.
  - rewrite (H y) by left. rewrite IH; [lia | | done].
    intros z Hz. apply H. by right.
Qed.

End FilterFacts.

(** On a sorted array the new element goes between the elements that rank at
    least as high and those that rank lower. *)
Lemma insert_desc_split {A : Type} (rank : A → Z) (x : A) (l : list A) :
  StronglySorted (Js.desc rank) l →
  Js.insert_desc rank x l
    = Js.filter (λ y, rank x <=? rank y) l
        ++ x :: Js.filter (λ y, rank y <? rank x) l.
Proof.
  induction 1 as [|y l Hl IH Hy]; simpl; [done|].
  destruct (Z.ltb_spec (rank y) (rank x)) as [Hlt|Hge].
  - destruct (Z.leb_spec (rank x) (rank y)); [lia|].
    assert (∀ z, z ∈ l → rank z < rank x) as Hbelow.
    { intros z Hz. rewrite Forall_forall in Hy. specialize (Hy z Hz).
      unfold Js.desc in Hy. lia. }
    rewrite (filter_all_false (λ z, rank x <=? rank z)).
    + simpl. do 2 f_equal. clear IH Hl Hy. induction l as [|z l IH]; simpl; [done|].
      assert ((rank z <? rank x) = true) as -> by (apply Z.ltb_lt, Hbelow; left).
      f_equal. apply IH. intros w Hw. apply Hbelow. by right.
    + intros z Hz. apply Z.leb_gt. auto.
  - destruct (Z.leb_spec (rank x) (rank y)); [|lia]. simpl. by rewrite IH.
Qed.

(** The position reported for a new entry whose id is the next id of the
    board: one more than the number of entries that hold at least its prize,
    where it stands in the stored list, as long as fewer than 100 do; [0] and
    no entry on the list otherwise. *)
Lemma position_of_add_entry (board : list Entry.t) (e : Entry.t) :
  Entry.id e = next_entry_id board →
  let ahead :=
    length (Js.filter (λ y, Entry.prizeWon e <=? Entry.prizeWon y) board) in
  ((ahead < 100)%nat →
     (add_entry board e) !! ahead = Some e
     ∧ position_of (add_entry board e) (Entry.id e) = Z.of_nat ahead + 1)
  ∧ ((100 ≤ ahead)%nat →
     (e ∉ add_entry board e)
     ∧ position_of (add_entry board e) (Entry.id e) = 0).
Proof.
  intros Hid. simpl.
  set (p := λ entry, Entry.id entry =? Entry.id e).
  assert (∀ y, y ∈ board → p y = false) as Hfresh.
  { intros y Hy. apply Z.eqb_neq. apply next_entry_id_fresh in Hy. lia. }
  assert (p e = true) as Hpe by apply Z.eqb_refl.
  unfold add_entry, position_of. fold p.
  rewrite keep_top_100_take, sort_desc_snoc.
  rewrite insert_desc_split by apply sort_desc_sorted.
  set (hi := Js.filter (λ y, Entry.prizeWon e <=? Entry.prizeWon y)
               (Js.sort_desc Entry.prizeWon board)).
  set (lo := Js.filter (λ y, Entry.prizeWon y <? Entry.prizeWon e)
               (Js.sort_desc Entry.prizeWon board)).
  assert (length (Js.filter (λ y, Entry.prizeWon e <=? Entry.prizeWon y) board)
          = length hi) as ->.
  { unfold hi. by rewrite (filter_Permutation _ _ _ (sort_desc_perm _ board)). }
  assert (∀ y, y ∈ hi → p y = false) as Hhi.
  { intros y Hy. apply Hfresh. apply elem_of_filter in Hy as [Hy _].
    by rewrite sort_desc_perm in Hy. }
  split; intros Hahead.
  - rewrite take_app_ge by lia.
    destruct (100 - length hi)%nat as [|k] eqn:Hk; [lia|]. simpl.
    split.
    + rewrite lookup_app_r by lia. by rewrite Nat.sub_diag.
    + unfold Js.findIndex. rewrite findIndex_from_app_cons by done. lia.
  - rewrite take_app_le by lia.
    assert (∀ y, y ∈ take 100 hi → p y = false) as Htake.
    { intros y Hy. apply Hhi. by apply (subseteq_take 100). }
    split.
    + intros He. apply Htake in He. congruence.
    + unfold Js.findIndex. by rewrite findIndex_from_none.
Qed.

(** The claim of C5 fails in two ways. A completion with the prize 5000
    that carries no [completionTime], or carries it as the clock text 3:10,
    gets the 500 answer and no entry is stored: neither a rank nor an
    "unranked" result. And on the board of 100 entries with prizes from 6000
    up, a completion with prize 1 and a numeric time gets the ordinary
    success answer, whose [leaderboardPosition] is the number 0. *)
Lemma completion_gets_error_or_zero :
  (Complete.game_complete digits_number 0 (Complete.mk_store ∅ None) ann
     (untimed_game 5000)).2
    = Complete.Failed 500 "Server error saving game results"
  ∧ Complete.leaderboard
      (Complete.game_complete digits_number 0 (Complete.mk_store ∅ None) ann
         (untimed_game 5000)).1 = None
  ∧ (Complete.game_complete digits_number 0 (Complete.mk_store ∅ None) ann
       (clock_game 5000)).2
      = Complete.Failed 500 "Server error saving game results"
  ∧ (Legacy.complete_game digits_number 0 None
       (Legacy.mk_body "qt7" "ann" 5000 16 16 (Js.JStr "3:10")))
      = (None, Legacy.Failed 500 "Server error completing game")
  ∧ length (default [] (Complete.leaderboard full_board)) = 100%nat
  ∧ (∃ summary,
       (Complete.game_complete digits_number 200 full_board ann
          (game_with_prize 1)).2
       = Complete.Sent
           (Complete.mk_response true "Game results saved successfully"
              (Some 0) summary)).
Proof.
  split_and!; [by vm_compute .. |]. eexists. vm_compute. reflexivity.
Qed.

(** C5, amended. A completion with a positive prize whose entry the schema
    accepts is stored as a new entry and answered with success and a
    position: the entry's 1-based place in the stored, truncated list, one
    more than the number of entries already holding at least that prize, as
    long as fewer than 100 do. When 100 or more do, the entry is not on the
    stored list and the position in the success answer is 0. The same holds
    for the backwards-compatible POST /api/complete-game. *)
Theorem submit_reports_rank_or_zero
  (to_number : string → option Z)
  (now : Z) (s : Complete.store) (u : Complete.identity) (b : Complete.body)
  (p : Z) (doc : option (list Entry.t)) (lb : Legacy.body) :
  Complete.finalPrize b = Some p → 0 < p →
  is_Some (Complete.entry_time to_number b) →
  is_Some (Legacy.entry_time to_number lb) →
  Legacy.userId lb ≠ ""%string → Legacy.playerName lb ≠ ""%string →
  (let board := default [] (Complete.leaderboard s) in
   let ahead :=
     length (Js.filter (λ y, p <=? Entry.prizeWon y) board) in
   let sr := Complete.game_complete to_number now s u b in
   ∃ stored newEntry r,
     Complete.leaderboard sr.1 = Some stored
     ∧ sr.2 = Complete.Sent r
     ∧ Complete.success r = true
     ∧ Entry.userId newEntry = Complete.userId u
     ∧ Entry.prizeWon newEntry = p
     ∧ ((ahead < 100)%nat →
          stored !! ahead = Some newEntry
          ∧ Complete.leaderboardPosition r = Some (Z.of_nat ahead + 1))
     ∧ ((100 ≤ ahead)%nat →
          (newEntry ∉ stored)
          ∧ Complete.leaderboardPosition r = Some 0))
  ∧ (let board := default [] doc in
     let ahead :=
       length (Js.filter (λ y, Legacy.prizeWon lb <=? Entry.prizeWon y) board) in
     let sr := Legacy.complete_game to_number now doc lb in
     ∃ stored newEntry r,
       sr.1 = Some stored
       ∧ sr.2 = Legacy.Sent r
       ∧ Legacy.success r = true
       ∧ Entry.userId newEntry = Legacy.userId lb
       ∧ Entry.prizeWon newEntry = Legacy.prizeWon lb
       ∧ ((ahead < 100)%nat →
            stored !! ahead = Some newEntry
            ∧ Legacy.leaderboardPosition r = Z.of_nat ahead + 1)
       ∧ ((100 ≤ ahead)%nat →
            (newEntry ∉ stored)
            ∧ Legacy.leaderboardPosition r = 0)).
Proof.
  intros Hb Hp [time Htime] [ltime Hltime] Huser Hplayer. split.
  - unfold Complete.game_complete. rewrite Hb, Htime. simpl.
    apply Z.ltb_lt in Hp. rewrite Hp. simpl.
    set (board := default [] (Complete.leaderboard s)).
    set (newEntry := Entry.mk (next_entry_id board) _ _ _ _ _ _ _).
    exists (add_entry board newEntry), newEntry. eexists.
    destruct (position_of_add_entry board newEntry eq_refl) as [Hin Hout].
    split_and!; [done | reflexivity | done | done | done | |].
    + intros H. destruct (Hin H) as [H1 H2]. split; [done|]. simpl. f_equal. exact H2.
    + intros H. destruct (Hout H) as [H1 H2]. split; [done|]. simpl. f_equal. exact H2.
  - unfold Legacy.complete_game. rewrite Hltime.
    apply String.eqb_neq in Huser, Hplayer. unfold Js.required_string.
    rewrite Huser, Hplayer. simpl.
    set (board := default [] doc).
    set (newEntry := Entry.mk (next_entry_id board) _ _ _ _ _ _ _).
    exists (add_entry board newEntry), newEntry. eexists.
    destruct (position_of_add_entry board newEntry eq_refl) as [Hin Hout].
    split_and!; [done | reflexivity | done | done | done | exact Hin | exact Hout].
Qed.

Lemma submit_reports_rank_or_zero_witness :
  ∃ r1 r2,
    (Complete.game_complete digits_number 0 (Complete.mk_store ∅ None) ann
       (game_with_prize 5000)).2 = Complete.Sent r1
    ∧ Complete.leaderboardPosition r1 = Some 1
    ∧ (Legacy.complete_game digits_number 0 None (legacy_with_prize 5000)).2
        = Legacy.Sent r2
    ∧ Legacy.leaderboardPosition r2 = 1.
Proof.
  destruct (submit_reports_rank_or_zero digits_number 0 (Complete.mk_store ∅ None)
              ann (game_with_prize 5000) 5000 None (legacy_with_prize 5000)
              eq_refl eq_refl (ex_intro _ _ eq_refl) (ex_intro _ _ eq_refl)
              ltac:(discriminate) ltac:(discriminate))
    as [(st1 & e1 & r1 & _ & Hr1 & _ & _ & _ & H1 & _)
        (st2 & e2 & r2 & _ & Hr2 & _ & _ & _ & H2 & _)].
  exists r1, r2. split_and!.
  - exact Hr1.
  - apply H1. vm_compute. lia.
  - exact Hr2.
  - apply H2. vm_compute. lia.
Defined.

(** ** Submissions and existing entries *)

Lemma find_findIndex_from {A : Type} (p : A → bool) (l : list A) (x : A) (i : Z) :
  Js.find p l = Some x →
  ∃ n : nat, Js.findIndex_from p l i = i + Z.of_nat n ∧ l !! n = Some x.
Proof.
  revert i. induction l as [|y l IH]; intros i; simpl; [done|].
  destruct (p y).
  - intros [= ->]. exists 0%nat. split; [lia | done].
  - intros H. destruct (IH (i + 1) H) as (n & Hn & Hl).
    exists (S n). split; [lia | done].
Qed.

Lemma find_findIndex {A : Type} (p : A → bool) (l : list A) (x : A) :
  Js.find p l = Some x →
  ∃ n : nat, Js.findIndex p l = Z.of_nat n ∧ l !! n = Some x.
Proof.
  intros H. destruct (find_findIndex_from p l x 0 H) as (n & Hn & Hl).
  exists n. split; [unfold Js.findIndex; lia | done].
Qed.

(** The merge for a user name found at index [n]. *)
Lemma stats_leaderboard_existing now doc username g existing (n : nat) :
  Js.findIndex (λ entry, String.eqb (ScoreEntry.username entry) username)
    (default [] doc) = Z.of_nat n →
  default [] doc !! n = Some existing →
  Scores.stats_leaderboard now doc username g
    = keep_top_100 (Js.sort_desc ScoreEntry.score
        (if ScoreEntry.score existing <? Scores.score g
         then <[n := ScoreEntry.mk username (Scores.score g)
                       (Scores.questionsAnswered g) (Scores.correctAnswers g)
                       (Scores.averageTimePerQuestion g) (Scores.totalTime g) now]>
                (default [] doc)
         else default [] doc)).
Proof.
  intros Hn Hlookup. unfold Scores.stats_leaderboard. cbv zeta.
  rewrite Hn, Nat2Z.id, Hlookup.
  assert ((0 <=? Z.of_nat n) = true) as -> by (apply Z.leb_le; lia). done.
Qed.

Lemma keep_top_100_id {A : Type} (l : list A) :
  (length l ≤ 100)%nat → keep_top_100 l = l.
Proof. intros H. rewrite keep_top_100_take. by apply take_ge. Qed.

(** Truncation only drops entries. *)
Lemma add_entry_submseteq (board : list Entry.t) (e : Entry.t) :
  add_entry board e ⊆+ board ++ [e].
Proof.
  unfold add_entry. rewrite keep_top_100_take.
  etrans; [apply sublist_submseteq, sublist_take|].
  by rewrite sort_desc_perm.
Qed.

(** The claim of C2 fails on the prize-ranked board: a second completion of
    user "a" with the lower prize 50 is stored next to the first one. Both
    completions carry a numeric time and both are answered with success. *)
Lemma inferior_replay_is_stored :
  let r1 := Complete.game_complete digits_number 1 (Complete.mk_store ∅ None)
              player_a (game_with_prize 100) in
  let r2 := Complete.game_complete digits_number 2 r1.1 player_a
              (game_with_prize 50) in
  (λ e, (Entry.userId e, Entry.prizeWon e)) <$> default [] (Complete.leaderboard r1.1)
    = [("a"%string, 100)]
  ∧ (λ e, (Entry.userId e, Entry.prizeWon e)) <$> default [] (Complete.leaderboard r2.1)
    = [("a"%string, 100); ("a"%string, 50)]
  ∧ Complete.leaderboard r2.1 ≠ Complete.leaderboard r1.1
  ∧ (∃ r, r2.2 = Complete.Sent r ∧ Complete.success r = true
          ∧ Complete.leaderboardPosition r = Some 2).
Proof.
  vm_compute. split_and!; [done | done | congruence |].
  eexists. split_and!; reflexivity.
Qed.

(** C2, amended. On the score-ranked board (the merge of POST /api/stats and
    [updateLeaderboard]), kept sorted and within 100 entries, a submission
    for a user name that has an entry leaves the board as it is unless the
    new score is strictly greater, and otherwise puts the new entry in the
    place of the old one and sorts again. On the prize-ranked board no entry
    is matched by user: a completion with a positive prize whose entry the
    schema accepts is pushed as an entry of its own, with an id above every
    id on the board, whatever the board holds for that user; the board is
    then sorted and cut to its first 100 entries, so every stored entry is an
    old one or the new one, and on a board with fewer than 100 entries all
    the old entries and the new one are stored. *)
Theorem submit_by_key_amended
  (to_number : string → option Z)
  (now : Z) (doc : option (list ScoreEntry.t)) (username : string)
  (g : Scores.gameStats) (existing : ScoreEntry.t)
  (s : Complete.store) (u : Complete.identity) (b : Complete.body) (p : Z) :
  StronglySorted (Js.desc ScoreEntry.score) (default [] doc) →
  (length (default [] doc) ≤ 100)%nat →
  Js.find (λ entry, String.eqb (ScoreEntry.username entry) username)
    (default [] doc) = Some existing →
  Complete.finalPrize b = Some p → 0 < p →
  is_Some (Complete.entry_time to_number b) →
  (Scores.score g ≤ ScoreEntry.score existing →
     Scores.stats_leaderboard now doc username g = default [] doc
     ∧ Scores.updateLeaderboard now doc username g = default [] doc)
  ∧ (ScoreEntry.score existing < Scores.score g →
     ∃ i newEntry,
       default [] doc !! i = Some existing
       ∧ ScoreEntry.username newEntry = username
       ∧ ScoreEntry.score newEntry = Scores.score g
       ∧ Scores.stats_leaderboard now doc username g
           = Js.sort_desc ScoreEntry.score (<[i := newEntry]> (default [] doc))
       ∧ Scores.updateLeaderboard now doc username g
           = Js.sort_desc ScoreEntry.score (<[i := newEntry]> (default [] doc)))
  ∧ (let board := default [] (Complete.leaderboard s) in
     ∃ newEntry stored,
       Complete.leaderboard (Complete.game_complete to_number now s u b).1
         = Some stored
       ∧ Entry.userId newEntry = Complete.userId u
       ∧ Entry.prizeWon newEntry = p
       ∧ (∀ e, e ∈ board → Entry.id e < Entry.id newEntry)
       ∧ stored
           = keep_top_100 (Js.sort_desc Entry.prizeWon (board ++ [newEntry]))
       ∧ stored ⊆+ board ++ [newEntry]
       ∧ ((length board < 100)%nat → stored ≡ₚ board ++ [newEntry])).
Proof.
  intros Hsorted Hlen Hfind Hb Hp [time Htime].
  destruct (find_findIndex _ _ _ Hfind) as (n & Hn & Hlookup).
  pose proof (stats_leaderboard_existing now doc username g existing n Hn Hlookup)
    as Hmerge.
  split_and!.
  - intros Hle.
    change (Scores.updateLeaderboard now doc username g)
      with (Scores.stats_leaderboard now doc username g). rewrite Hmerge.
    assert ((ScoreEntry.score existing <? Scores.score g) = false) as ->.
    { apply Z.ltb_ge. lia. }
    rewrite sort_desc_sorted_id by done. by rewrite keep_top_100_id.
  - intros Hlt.
    change (Scores.updateLeaderboard now doc username g)
      with (Scores.stats_leaderboard now doc username g). rewrite Hmerge.
    apply Z.ltb_lt in Hlt. rewrite Hlt.
    exists n, (ScoreEntry.mk username (Scores.score g) (Scores.questionsAnswered g)
                 (Scores.correctAnswers g) (Scores.averageTimePerQuestion g)
                 (Scores.totalTime g) now).
    split_and!; [done | done | done | |];
      apply keep_top_100_id; by rewrite sort_desc_length, length_insert.
  - unfold Complete.game_complete. rewrite Hb, Htime. simpl.
    apply Z.ltb_lt in Hp. rewrite Hp. simpl.
    set (board := default [] (Complete.leaderboard s)).
    set (newEntry := Entry.mk (next_entry_id board) _ _ _ _ _ _ _).
    exists newEntry, (add_entry board newEntry).
    split_and!; [done | done | done | | done | apply add_entry_submseteq |].
    + intros e He. by apply next_entry_id_fresh.
    + intros Hroom. unfold add_entry. rewrite keep_top_100_id.
      * apply sort_desc_perm.
      * rewrite sort_desc_length, length_app. simpl. lia.
Qed.

Lemma submit_by_key_amended_witness :
  let board := [ScoreEntry.mk "a" 100 16 12 7 100 1] in
  Scores.stats_leaderboard 2 (Some board) "a" (score_a 50) = board
  ∧ Scores.updateLeaderboard 2 (Some board) "a" (score_a 50) = board.
Proof.
  refine (proj1 (submit_by_key_amended digits_number 2
                   (Some [ScoreEntry.mk "a" 100 16 12 7 100 1]) "a" (score_a 50)
                   (ScoreEntry.mk "a" 100 16 12 7 100 1)
                   (Complete.mk_store ∅ None) player_a (game_with_prize 50) 50
                   _ _ eq_refl eq_refl eq_refl (ex_intro _ _ eq_refl)) _).
  - simpl. repeat constructor.
  - simpl. lia.
  - simpl. lia.
Defined.

(** ** The game session builder *)

(** [indexOf] of a member is the index of its first occurrence. *)
Lemma indexOf_member (l : list string) (s : string) :
  s ∈ l →
  0 ≤ Js.indexOf l s ∧ l !! Z.to_nat (Js.indexOf l s) = Some s.
Proof.
  intros Hs. unfold Js.indexOf.
  destruct (findIndex_spec (String.eqb s) l) as [[_ Hnone] | (n & x & -> & Hn & Hx & _)].
  - specialize (Hnone s Hs). by rewrite String.eqb_refl in Hnone.
  - apply String.eqb_eq in Hx as <-. split; [lia|]. by rewrite Nat2Z.id.
Qed.

Lemma indexOf_absent (l : list string) (s : string) :
  s ∉ l → Js.indexOf l s = -1.
Proof.
  intros Hs. unfold Js.indexOf, Js.findIndex. apply findIndex_from_none.
  intros x Hx. apply String.eqb_neq. by intros <-.
Qed.

(** With at least 16 questions, 16 of the catalog are selected, no id
    twice when the catalog has none twice. *)
Lemma getRandomQuestions_16 (pool shuffled : list Question.t) :
  pool ≡ₚ shuffled → (16 ≤ length pool)%nat →
  let selected := Session.getRandomQuestions pool shuffled 16 in
  length selected = 16%nat
  ∧ selected ⊆ pool
  ∧ (NoDup (Question.id <$> pool) → NoDup (Question.id <$> selected)).
Proof.
  intros Hperm Hlen. unfold Session.getRandomQuestions, Js.slice0.
  destruct (Nat.leb_spec (length pool) 16) as [Hle|Hgt]; simpl.
  - split_and!; [lia | done | done].
  - split_and!.
    + rewrite length_take, <- Hperm. lia.
    + rewrite Hperm. apply subseteq_take.
    + intros Hnd. rewrite Hperm in Hnd.
      eapply sublist_NoDup; [exact Hnd|]. apply fmap_sublist, sublist_take.
Qed.

Lemma selected_item_ids (g : nat → nat) (l : list Question.t) :
  Session.Item.id <$> imap (λ i, Session.selected_item (g i)) l
    = Question.id <$> l.
Proof.
  revert g. induction l as [|q l IH]; intros g; simpl; [done|].
  f_equal. apply (IH (λ i, g (S i))).
Qed.

(** C6. With a catalog of at least 16 questions whose ids are pairwise
    distinct (the shuffle being any permutation of it), the builder answers
    with exactly 16 items with pairwise distinct ids; question numbers,
    levels, time limits and prizes are those of [game_structure], fixed by
    position alone: three easy items of 10 seconds, six medium items of 20
    seconds and seven hard items of 30 seconds, prizes from 1000 to
    700000000; and every item is a catalog question carrying, instead of the
    answer text, the index [options.indexOf(answer)], which is the zero-based
    index of the correct option whenever the answer is one of the options. *)
Theorem game_session_structure
  (fuel : nat) (rand : nat → nat) (shuffled : list Question.t) (fs : Files.t) :
  getAllQuestions fs ≡ₚ shuffled →
  NoDup (Question.id <$> getAllQuestions fs) →
  (16 ≤ length (getAllQuestions fs))%nat →
  ∃ r, Session.game_questions fuel rand shuffled fs = Some r
    ∧ length (Session.questions r) = 16%nat
    ∧ Session.totalQuestions r = 16
    ∧ NoDup (Session.Item.id <$> Session.questions r)
    ∧ (λ it, (Session.Item.questionNumber it, Session.Item.level it,
              Session.Item.timeLimit it, Session.Item.prizeValue it))
        <$> Session.questions r = game_structure
    ∧ ∀ it, it ∈ Session.questions r →
        ∃ q, q ∈ getAllQuestions fs
          ∧ Session.Item.id it = Question.id q
          ∧ Session.Item.question it = Question.question q
          ∧ Session.Item.options it = Question.options q
          ∧ Session.Item.answer it
              = Js.indexOf (Question.options q) (Question.answer q)
          ∧ (Question.answer q ∈ Question.options q →
               0 ≤ Session.Item.answer it
               ∧ Question.options q !! Z.to_nat (Session.Item.answer it)
                   = Some (Question.answer q)).
Proof.
  intros Hperm Hnd Hlen. unfold Session.game_questions.
  destruct (getRandomQuestions_16 _ _ Hperm Hlen) as (Hsel & Hsub & Hnd').
  specialize (Hnd' Hnd).
  set (selected := Session.getRandomQuestions (getAllQuestions fs) shuffled 16) in *.
  assert ((length (imap Session.selected_item selected) <? 16)%nat = false) as ->.
  { apply Nat.ltb_ge. rewrite length_imap. lia. }
  assert (Js.slice0 16 (imap Session.selected_item selected)
          = imap Session.selected_item selected) as ->.
  { apply take_ge. rewrite length_imap. lia. }
  exists (Session.mk_response (imap Session.selected_item selected) 16).
  split; [reflexivity|]. cbn [Session.questions Session.totalQuestions].
  split_and!.
  - rewrite length_imap. lia.
  - done.
  - by rewrite (selected_item_ids (λ i, i)).
  - do 17 (destruct selected as [|? selected]; try discriminate Hsel).
    reflexivity.
  - intros it Hit. apply elem_of_lookup_imap_1 in Hit as (i & q & -> & Hq).
    exists q. split_and!; try done.
    + apply Hsub. by eapply list_elem_of_lookup_2.
    + apply indexOf_member.
Qed.

Lemma game_session_structure_witness :
  ∃ r, Session.game_questions 0 (λ k, k) (reverse sample_catalog)
         sample_catalog_files = Some r
    ∧ length (Session.questions r) = 16%nat
    ∧ (λ it, (Session.Item.questionNumber it, Session.Item.level it,
              Session.Item.timeLimit it, Session.Item.prizeValue it))
        <$> Session.questions r = game_structure.
Proof.
  assert (getAllQuestions sample_catalog_files ≡ₚ reverse sample_catalog) as H1.
  { symmetry. apply reverse_Permutation. }
  assert (NoDup (Question.id <$> getAllQuestions sample_catalog_files)) as H2.
  { apply (bool_decide_unpack _). vm_compute. exact I. }
  assert (16 ≤ length (getAllQuestions sample_catalog_files))%nat as H3.
  { vm_compute. lia. }
  destruct (game_session_structure 0 (λ k, k) (reverse sample_catalog)
              sample_catalog_files H1 H2 H3) as (r & Hr & Hlen & _ & _ & Hst & _).
  exists r. auto.
Defined.

(** When every id of a non-empty catalog is already chosen and fewer than 16
    items are chosen, each draw is a duplicate: the padding loop goes
    round without a change, however much fuel it is given. *)
Lemma pad_exhausted (fuel : nat) (rand : nat → nat) (k : nat)
  (catalog : list Question.t) (allQuestions : list Session.Item.t) :
  (0 < length catalog)%nat →
  (length allQuestions < 16)%nat →
  (∀ q, q ∈ catalog → Question.id q ∈ (Session.Item.id <$> allQuestions)) →
  Session.pad fuel rand k catalog allQuestions = None.
Proof.
  intros Hcat Hlen Hall. revert k.
  induction fuel as [|fuel IH]; intros k; simpl.
  - apply Nat.ltb_lt in Hcat, Hlen. by rewrite Hcat, Hlen.
  - assert ((length allQuestions <? 16)%nat = true) as -> by by apply Nat.ltb_lt.
    assert ((0 <? length catalog)%nat = true) as -> by by apply Nat.ltb_lt.
    simpl.
    destruct (lookup_lt_is_Some_2 catalog (rand k `mod` length catalog)%nat)
      as [q Hq].
    { apply Nat.mod_upper_bound. lia. }
    rewrite Hq.
    assert (Js.some (λ it, String.eqb (Session.Item.id it) (Question.id q))
              allQuestions = true) as ->.
    { apply some_true.
      specialize (Hall q (list_elem_of_lookup_2 _ _ _ Hq)).
      apply list_elem_of_fmap in Hall as (it & Hid & Hit).
      exists it. split; [done|]. rewrite Hid. apply String.eqb_refl. }
    simpl. apply IH.
Qed.

(** The builder on an empty or missing catalog: no questions, and a normal
    answer. *)
Lemma game_questions_empty_catalog fuel rand shuffled fs :
  getAllQuestions fs = [] →
  Session.game_questions fuel rand shuffled fs
    = Some (Session.mk_response [] 16).
Proof.
  intros H. unfold Session.game_questions, Session.getRandomQuestions.
  rewrite H. simpl. by destruct fuel.
Qed.

(** C7. With a catalog of 1 to 15 questions the builder selects them all and
    then enters the padding loop, where every draw is a question already
    chosen: the loop never ends and no answer is produced, whatever the
    random draws and however long it runs. *)
Theorem game_questions_short_catalog
  (fuel : nat) (rand : nat → nat) (shuffled : list Question.t) (fs : Files.t) :
  (0 < length (getAllQuestions fs) < 16)%nat →
  Session.game_questions fuel rand shuffled fs = None.
Proof.
  intros [Hpos Hshort]. unfold Session.game_questions, Session.getRandomQuestions.
  assert ((length (getAllQuestions fs) <=? 16)%nat = true) as ->
    by (apply Nat.leb_le; lia).
  assert ((length (imap Session.selected_item (getAllQuestions fs)) <? 16)%nat
          = true) as ->
    by (apply Nat.ltb_lt; rewrite length_imap; lia).
  rewrite pad_exhausted; [done | done | by rewrite length_imap |].
  intros q Hq. rewrite (selected_item_ids (λ i, i)).
  apply list_elem_of_fmap. eauto.
Qed.

Lemma game_questions_short_catalog_witness :
  Session.game_questions 1000 (λ k, k) [] one_question_files = None.
Proof.
  apply game_questions_short_catalog. vm_compute. lia.
Defined.

(** ** Batches of questions *)

Lemma elem_of_limit {A : Type} (n : nat) (l : list A) (x : A) :
  x ∈ Progress.limit n l → x ∈ l.
Proof.
  destruct n as [|n]; simpl; [done|]. intros H.
  by apply (subseteq_take (S n)).
Qed.

(** Within the primary store alone the delivery avoids repeats: the
    documents delivered are not among the user's answered ids, and those ids
    are appended to them. *)
Lemma next_batch_docs matches allQuestions to_doc s username count s' questions :
  Progress.next_batch matches allQuestions to_doc s username count
    = (s', Progress.Docs questions) →
  let answered := default [] (Progress.users s !! username) in
  (∀ d, d ∈ questions → (Progress.Doc.id d ∉ answered) ∧ matches d = true)
  ∧ Progress.users s' !! username
      = Some (answered ++ (Progress.Doc.id <$> questions)).
Proof.
  unfold Progress.next_batch, Progress.find_or_create_user.
  destruct (Progress.users s !! username) as [answered|] eqn:Hu; simpl; [|done].
  destruct (length _ =? 0)%nat.
  - destruct (Files.user_questions_json _); [|done].
    destruct (0 <? _)%nat; [|done]. destruct (Progress.insertMany _ _) as [? []]; done.
  - intros [= <- <-]. simpl. split; [|apply lookup_insert_eq].
    intros d Hd. apply elem_of_limit, elem_of_filter in Hd as [_ Hd].
    apply andb_true_iff in Hd as [Hm Hd]. apply negb_true_iff in Hd.
    split; [by apply includes_false | done].
Qed.

(** C3. A user of the primary store whose [Question] collection is still
    empty asks twice for two easy questions. The first batch comes from the
    file catalog: q1 and q2 are delivered, recorded in [user_questions.json]
    only, and copied into the collection. The second batch comes from the
    collection, whose query excludes the ids of the [User] document, still
    empty: q1 and q2 are delivered again, although q3 of the same level has
    never been delivered. The handler without levels behaves alike. *)
Theorem fallback_batch_is_served_again :
  (let r1 := Progress.questions_by_level fresh_store "u" "easy" 2 in
   let r2 := Progress.questions_by_level r1.1 "u" "easy" 2 in
   Progress.delivered r1.2 = ["q1"; "q2"]%string
   ∧ Progress.users r1.1 !! "u"%string = Some []
   ∧ (Files.user_questions_json (Progress.files r1.1) ≫= (.!! "u"%string))
       = Some ["q1"; "q2"]%string
   ∧ Progress.Doc.id <$> Progress.docs r1.1 = ["q1"; "q2"]%string
   ∧ Progress.delivered r2.2 = ["q1"; "q2"]%string
   ∧ Question.id <$> getQuestions (Progress.files r1.1) "easy"
       = ["q1"; "q2"; "q3"; "q4"]%string)
  ∧ (let r1 := Progress.questions_any fresh_store "u" (Some 2%nat) in
     let r2 := Progress.questions_any r1.1 "u" (Some 2%nat) in
     Progress.delivered r1.2 = ["q1"; "q2"]%string
     ∧ Progress.users r1.1 !! "u"%string = Some []
     ∧ Progress.delivered r2.2 = ["q1"; "q2"]%string
     ∧ Question.id <$> getAllQuestions (Progress.files r1.1)
         = ["q1"; "q2"; "q3"; "q4"]%string).
Proof. vm_compute. done. Qed.

(** ** The file-backed server: questions without repeats *)

Lemma filter_app {A : Type} (p : A → bool) (l k : list A) :
  Js.filter p (l ++ k) = Js.filter p l ++ Js.filter p k.
Proof.
  induction l as [|x l IH]; simpl; [done|]. destruct (p x); simpl; by rewrite IH.
Qed.

Lemma filter_sublist {A : Type} (p : A → bool) (l : list A) :
  Js.filter p l `sublist_of` l.
Proof.
  induction l as [|x l IH]; simpl; [done|].
  destruct (p x); [by apply sublist_skip | by apply sublist_cons].
Qed.

Lemma filter_nil_inv {A : Type} (p : A → bool) (l : list A) :
  Js.filter p l = [] → ∀ x, x ∈ l → p x = false.
Proof.
  induction l as [|y l IH]; simpl; [intros _ x Hx; inversion Hx|].
  destruct (p y) eqn:Hy; [done|]. intros H x Hx.
  apply elem_of_cons in Hx as [->|Hx]; auto.
Qed.

(** The questions of a batch: unseen, in catalog order, at most [count]. *)
Lemma unused_batch (seen : list string) (catalog : list Question.t) (count : nat) :
  let selected :=
    Js.slice0 count
      (Js.filter (λ q, negb (Js.includes seen (Question.id q))) catalog) in
  selected `sublist_of` catalog
  ∧ (length selected ≤ count)%nat
  ∧ ∀ q, q ∈ selected → Question.id q ∉ seen.
Proof.
  simpl. unfold Js.slice0. split_and!.
  - etransitivity; [apply sublist_take | apply filter_sublist].
  - rewrite length_take. lia.
  - intros q Hq. apply (subseteq_take count), elem_of_filter in Hq as [_ Hq].
    apply negb_true_iff in Hq. by apply includes_false.
Qed.

(** One request of the file-backed server. *)
Lemma post_questions_step
  (fs : Files.t) (username level : string) (count : nat) (seen : list string) :
  level ∈ LEVELS →
  FileServer.getUserQuestions fs username = Some seen →
  ∃ selected,
    (FileServer.post_questions fs username level count).2
      = FileServer.Sent selected
    ∧ selected `sublist_of` getQuestions fs level
    ∧ (length selected ≤ count)%nat
    ∧ (∀ q, q ∈ selected → Question.id q ∉ seen)
    ∧ FileServer.getUserQuestions
        (FileServer.post_questions fs username level count).1 username
        = Some (seen ++ (Question.id <$> selected))
    ∧ (∀ other, other ≠ username →
         FileServer.getUserQuestions
           (FileServer.post_questions fs username level count).1 other
           = FileServer.getUserQuestions fs other)
    ∧ (∀ l, getQuestions
              (FileServer.post_questions fs username level count).1 l
            = getQuestions fs l).
Proof.
  intros Hlevel Hseen. unfold FileServer.post_questions.
  rewrite (level_is_valid _ Hlevel), Hseen. simpl.
  destruct (unused_batch seen (getQuestions fs level) count) as (Hsub & Hlen & Hnew).
  eexists. split; [reflexivity|]. split_and!; try done.
  - unfold FileServer.getUserQuestions, FileServer.setUserQuestions. simpl.
    by rewrite lookup_insert_eq.
  - intros other Hother.
    unfold FileServer.getUserQuestions, FileServer.setUserQuestions in *. simpl.
    rewrite lookup_insert_ne by done.
    by destruct (Files.user_questions_json fs).
Qed.

(** X1. The file-backed POST /api/questions, for a valid level and an
    existing [user_questions.json]: the questions sent are questions of the
    level's catalog, in catalog order and at most [count] of them, none has
    an id on the user's list, the list is extended by exactly the ids sent,
    and the lists of the other users and the catalogs stay as they are. *)
Theorem post_questions_unseen
  (fs : Files.t) (username level : string) (count : nat) (seen : list string) :
  level ∈ LEVELS →
  FileServer.getUserQuestions fs username = Some seen →
  ∃ selected,
    (FileServer.post_questions fs username level count).2
      = FileServer.Sent selected
    ∧ selected `sublist_of` getQuestions fs level
    ∧ (length selected ≤ count)%nat
    ∧ (∀ q, q ∈ selected → Question.id q ∉ seen)
    ∧ FileServer.getUserQuestions
        (FileServer.post_questions fs username level count).1 username
        = Some (seen ++ (Question.id <$> selected))
    ∧ (∀ other, other ≠ username →
         FileServer.getUserQuestions
           (FileServer.post_questions fs username level count).1 other
           = FileServer.getUserQuestions fs other)
    ∧ (∀ l, getQuestions
              (FileServer.post_questions fs username level count).1 l
            = getQuestions fs l).
Proof.
  intros Hlevel Hseen. unfold FileServer.post_questions.
  rewrite (level_is_valid _ Hlevel), Hseen. simpl.
  destruct (unused_batch seen (getQuestions fs level) count) as (Hsub & Hlen & Hnew).
  eexists. split; [reflexivity|]. split_and!; try done.
  - unfold FileServer.getUserQuestions, FileServer.setUserQuestions. simpl.
    by rewrite lookup_insert_eq.
  - intros other Hother.
    unfold FileServer.getUserQuestions, FileServer.setUserQuestions in *. simpl.
    rewrite lookup_insert_ne by done.
    by destruct (Files.user_questions_json fs).
Qed.

Lemma post_questions_unseen_witness :
  ∃ selected,
    (FileServer.post_questions demo_files "u" "easy" 1).2
      = FileServer.Sent selected
    ∧ (length selected ≤ 1)%nat.
Proof.
  destruct (post_questions_unseen demo_files "u" "easy" 1 [])
    as (selected & H1 & _ & H2 & _).
  - unfold LEVELS. set_solver.
  - reflexivity.
  - exists selected. auto.
Defined.

Lemma sent_to_app username log1 log2 :
  FileServer.sent_to username (log1 ++ log2)
    = FileServer.sent_to username log1 ++ FileServer.sent_to username log2.
Proof. unfold FileServer.sent_to. by rewrite filter_app, fmap_app, concat_app. Qed.

(** X2. Over any sequence of requests of any users to the file-backed
    server, with catalogs that hold no id twice: the ids sent to one user,
    all batches and levels together, are pairwise distinct, none of them was
    on the user's list before, and the list ends as the old list followed by
    exactly those ids. *)
Theorem serve_never_repeats
  (fs : Files.t) (reqs : list FileServer.request) (username : string)
  (seen : list string) :
  (∀ level, NoDup (Question.id <$> getQuestions fs level)) →
  FileServer.getUserQuestions fs username = Some seen →
  NoDup (FileServer.sent_to username (FileServer.serve fs reqs).2)
  ∧ (∀ id, id ∈ FileServer.sent_to username (FileServer.serve fs reqs).2 →
       id ∉ seen)
  ∧ FileServer.getUserQuestions (FileServer.serve fs reqs).1 username
      = Some (seen ++ FileServer.sent_to username (FileServer.serve fs reqs).2).
Proof.
  revert fs seen. induction reqs as [|r reqs IH]; intros fs seen Hcat Hseen.
  - simpl. split_and!; [constructor | intros id H; inversion H |].
    by rewrite app_nil_r.
  - simpl.
    destruct (FileServer.post_questions fs (FileServer.r_username r)
                (FileServer.r_level r) (FileServer.r_count r))
      as [fs' resp] eqn:Hpost.
    destruct (FileServer.serve fs' reqs) as [fs'' log] eqn:Hserve. simpl.
    destruct (decide (FileServer.r_level r ∈ LEVELS)) as [Hlevel|Hlevel].
    2:{ unfold FileServer.post_questions in Hpost.
        apply includes_false in Hlevel. rewrite Hlevel in Hpost. simpl in Hpost.
        injection Hpost as <- <-. simpl.
        specialize (IH fs seen Hcat Hseen). by rewrite Hserve in IH. }
    assert (∃ seen_r,
              FileServer.getUserQuestions fs (FileServer.r_username r)
              = Some seen_r) as [seen_r Hseen_r].
    { unfold FileServer.getUserQuestions in *.
      destruct (Files.user_questions_json fs); [eauto | done]. }
    destruct (post_questions_step fs _ _ (FileServer.r_count r) seen_r
                Hlevel Hseen_r)
      as (selected & Hresp & Hsub & _ & Hnew & Hlist & Hothers & Hcat').
    rewrite Hpost in Hresp, Hlist, Hothers, Hcat'. simpl in *. subst resp.
    assert (∀ level, NoDup (Question.id <$> getQuestions fs' level)) as Hcat''.
    { intros l. rewrite Hcat'. apply Hcat. }
    rewrite sent_to_app.
    destruct (decide (FileServer.r_username r = username)) as [Heq|Hne].
    + rewrite Heq in Hseen_r, Hlist, Hothers |- *.
      assert (seen_r = seen) as ->.
      { rewrite Hseen in Hseen_r. by injection Hseen_r. }
      assert (FileServer.sent_to username
                [(username, Question.id <$> selected)]
              = Question.id <$> selected) as ->.
      { unfold FileServer.sent_to. simpl. rewrite String.eqb_refl. simpl.
        apply app_nil_r. }
      specialize (IH fs' _ Hcat'' Hlist). rewrite Hserve in IH. simpl in IH.
      destruct IH as (IHnd & IHnew & IHlist).
      split_and!.
      * apply NoDup_app. split_and!; [|intros id Hid Hin|done].
        -- eapply sublist_NoDup; [apply (Hcat (FileServer.r_level r))|].
           by apply fmap_sublist.
        -- apply (IHnew id Hin). apply elem_of_app. by right.
      * intros id Hid. apply elem_of_app in Hid as [Hid|Hid].
        -- apply list_elem_of_fmap in Hid as (q & -> & Hq). by apply Hnew.
        -- intros Hin. apply (IHnew id Hid). apply elem_of_app. by left.
      * by rewrite IHlist, app_assoc.
    + assert (FileServer.sent_to username
                [(FileServer.r_username r, Question.id <$> selected)] = [])
        as ->.
      { unfold FileServer.sent_to. simpl.
        by apply String.eqb_neq in Hne as ->. }
      simpl. specialize (IH fs' seen Hcat''). rewrite Hserve in IH. simpl in IH.
      apply IH. rewrite Hothers by congruence. exact Hseen.
Qed.

Lemma serve_never_repeats_witness :
  NoDup (FileServer.sent_to "u" (FileServer.serve two_level_files sample_requests).2)
  ∧ FileServer.sent_to "u" (FileServer.serve two_level_files sample_requests).2
      = ["q1"; "q2"; "q3"; "m1"; "q4"]%string.
Proof.
  split; [|vm_compute; reflexivity].
  refine (proj1 (serve_never_repeats two_level_files sample_requests "u" [] _ _)).
  - intros level. unfold getQuestions, two_level_files.
    cbn [Files.level_json].
    destruct (decide (level = "easy"%string)) as [->|He].
    { apply (bool_decide_unpack _). vm_compute. exact I. }
    rewrite lookup_insert_ne by congruence.
    destruct (decide (level = "medium"%string)) as [->|Hm].
    { apply (bool_decide_unpack _). vm_compute. exact I. }
    rewrite lookup_singleton_ne by congruence. constructor.
  - reflexivity.
Defined.

Lemma take_nil_inv {A : Type} (n : nat) (l : list A) :
  take n l = [] ↔ n = 0%nat ∨ l = [].
Proof.
  destruct n as [|n], l as [|x l]; simpl; split; try done; auto.
  intros [?|?]; done.
Qed.

(** X3. The file-backed POST /api/questions sends an empty batch exactly
    when [count] is 0 or every question of the level is on the user's list;
    otherwise the batch starts with the first question of the catalog that
    is not on the list. An empty batch leaves the list as it was. *)
Theorem post_questions_exhausted
  (fs : Files.t) (username level : string) (count : nat) (seen : list string) :
  level ∈ LEVELS →
  FileServer.getUserQuestions fs username = Some seen →
  ((FileServer.post_questions fs username level count).2 = FileServer.Sent []
   ↔ count = 0%nat
     ∨ ∀ q, q ∈ getQuestions fs level → Question.id q ∈ seen)
  ∧ ((FileServer.post_questions fs username level count).2 = FileServer.Sent [] →
     FileServer.getUserQuestions
       (FileServer.post_questions fs username level count).1 username
     = Some seen)
  ∧ (∀ known q rest,
       getQuestions fs level = known ++ q :: rest →
       (∀ k, k ∈ known → Question.id k ∈ seen) →
       Question.id q ∉ seen → count ≠ 0%nat →
       ∃ more,
         (FileServer.post_questions fs username level count).2
           = FileServer.Sent (q :: more)).
Proof.
  intros Hlevel Hseen. unfold FileServer.post_questions.
  rewrite (level_is_valid _ Hlevel), Hseen. simpl. unfold Js.slice0.
  split_and!.
  - split.
    + intros [= H]. apply take_nil_inv in H as [->|H]; [by left|]. right.
      intros q Hq. pose proof (filter_nil_inv _ _ H q Hq) as Hf. simpl in Hf.
      apply negb_false_iff in Hf. by apply includes_true.
    + intros [->|H]; [done|]. rewrite filter_all_false; [by rewrite take_nil|].
      intros q Hq. apply negb_false_iff. apply includes_true. auto.
  - intros [= H]. rewrite H.
    unfold FileServer.getUserQuestions, FileServer.setUserQuestions. simpl.
    by rewrite lookup_insert_eq, app_nil_r.
  - intros known q rest Hcat Hknown Hq Hcount. rewrite Hcat, filter_app.
    rewrite (filter_all_false _ known).
    2:{ intros k Hk. apply negb_false_iff, includes_true. auto. }
    simpl. apply includes_false in Hq. rewrite Hq. simpl.
    destruct count as [|n]; [done|]. simpl. eauto.
Qed.

Lemma post_questions_exhausted_witness :
  (FileServer.post_questions demo_files "u" "easy" 0).2 = FileServer.Sent [].
Proof.
  assert ("easy"%string ∈ LEVELS) as Hlevel by (unfold LEVELS; set_solver).
  apply (proj1 (post_questions_exhausted demo_files "u" "easy" 0 [] Hlevel eq_refl)).
  by left.
Defined.

(** X4. Without [user_questions.json] the file-backed POST /api/questions
    raises for every user and every valid level. POST /api/reset-questions
    creates the file if need be, empties the list of its user and leaves the
    other lists alone; the next batch of that user is the first [count]
    questions of the catalog again. *)
Theorem reset_questions_restarts
  (fs : Files.t) (username level : string) (count : nat) :
  level ∈ LEVELS →
  (Files.user_questions_json fs = None →
     FileServer.post_questions fs username level count = (fs, FileServer.Thrown))
  ∧ FileServer.getUserQuestions (FileServer.post_reset_questions fs username)
      username = Some []
  ∧ (∀ other, other ≠ username →
       FileServer.getUserQuestions (FileServer.post_reset_questions fs username)
         other = Some (default [] (FileServer.getUserQuestions fs other)))
  ∧ (FileServer.post_questions (FileServer.post_reset_questions fs username)
       username level count).2
      = FileServer.Sent (take count (getQuestions fs level)).
Proof.
  intros Hlevel. split_and!.
  - intros Hnone. unfold FileServer.post_questions, FileServer.getUserQuestions.
    by rewrite (level_is_valid _ Hlevel), Hnone.
  - unfold FileServer.getUserQuestions, FileServer.post_reset_questions,
      FileServer.setUserQuestions. simpl. by rewrite lookup_insert_eq.
  - intros other Hother.
    unfold FileServer.getUserQuestions, FileServer.post_reset_questions,
      FileServer.setUserQuestions. simpl. rewrite lookup_insert_ne by done.
    by destruct (Files.user_questions_json fs).
  - unfold FileServer.post_questions.
    rewrite (level_is_valid _ Hlevel). simpl.
    unfold FileServer.getUserQuestions, FileServer.post_reset_questions,
      FileServer.setUserQuestions. simpl. rewrite lookup_insert_eq. simpl.
    f_equal. unfold Js.slice0. f_equal.
    change (getQuestions _ level) with (getQuestions fs level).
    induction (getQuestions fs level) as [|q l IH]; simpl; [done|]. by rewrite IH.
Qed.

Lemma reset_questions_restarts_witness :
  (FileServer.post_questions
     (FileServer.post_reset_questions demo_files "u") "u" "easy" 1).2
    = FileServer.Sent (take 1 (getQuestions demo_files "easy")).
Proof.
  assert ("easy"%string ∈ LEVELS) as Hlevel by (unfold LEVELS; set_solver).
  apply (proj2 (proj2 (proj2
           (reset_questions_restarts demo_files "u" "easy" 1 Hlevel)))).
Defined.

(** ** The file-backed server: scores and statistics *)

(** X5. What POST /api/score and POST /api/stats store is what the GET
    routes send: after POST /api/score the score of the user is the one
    posted; after POST /api/stats the statistics of the user are the body
    with the time of the request and the score is the body's score (the last
    post wins, nothing is added up). A user without statistics gets
    [NoStats], a user without score gets 0, and the entries of the other
    users and the question files are left alone. *)
Theorem posted_is_what_get_sends
  (d : Disk.t) (username other : string) (score lastPlayed now : Z)
  (body : GameStats.t) :
  other ≠ username →
  FileServer.get_score (FileServer.post_score d username score) username = score
  ∧ FileServer.get_score (FileServer.post_score d username score) other
      = FileServer.get_score d other
  ∧ (let d' := FileServer.post_stats lastPlayed now d username body in
     FileServer.get_stats d' username
       = FileServer.Found
           (GameStats.mk (GameStats.score body) (GameStats.questionsAnswered body)
              (GameStats.correctAnswers body) (GameStats.wrongAnswers body)
              (GameStats.averageTimePerQuestion body) (GameStats.totalTime body)
              (GameStats.level body) (GameStats.lifelinesUsed body) lastPlayed)
     ∧ FileServer.get_score d' username = GameStats.score body
     ∧ FileServer.get_stats d' other = FileServer.get_stats d other
     ∧ FileServer.get_score d' other = FileServer.get_score d other
     ∧ Disk.files d' = Disk.files d)
  ∧ (FileServer.getUserStats d username = None →
       FileServer.get_stats d username = FileServer.NoStats)
  ∧ (FileServer.getUserScores d !! username = None →
       FileServer.get_score d username = 0).
Proof.
  intros Hother.
  assert (∀ z, Js.num_or (Some z) 0 = z) as Hnum.
  { intros z. simpl. by destruct (Z.eqb_spec z 0). }
  unfold FileServer.get_score, FileServer.post_score, FileServer.get_stats,
    FileServer.post_stats, FileServer.getUserStats, FileServer.getUserScores,
    FileServer.setUserScore, FileServer.setUserStats. simpl.
  split_and!.
  - by rewrite lookup_insert_eq.
  - by rewrite lookup_insert_ne.
  - by rewrite lookup_insert_eq.
  - by rewrite lookup_insert_eq.
  - rewrite lookup_insert_ne by done. by destruct (Disk.stats_json d).
  - by rewrite lookup_insert_ne.
  - done.
  - by intros ->.
  - by intros ->.
Qed.

Lemma posted_is_what_get_sends_witness :
  FileServer.get_score
    (FileServer.post_stats 5 6 empty_disk "u" (sample_result 900)) "u" = 900
  ∧ FileServer.get_stats
      (FileServer.post_stats 5 6 empty_disk "u" (sample_result 900)) "v"
      = FileServer.NoStats.
Proof.
  assert ("v"%string ≠ "u"%string) as Hne by done.
  destruct (posted_is_what_get_sends empty_disk "u" "v" 0 5 6 (sample_result 900)
              Hne) as (_ & _ & (_ & H1 & H2 & _) & _).
  split; [exact H1 | exact H2].
Defined.

(** ** The score-ranked leaderboard: one entry per user, the best one *)

Lemma keep_top_100_sort_NoDup {A B : Type} (rank : A → Z) (f : A → B) (l : list A) :
  NoDup (f <$> l) → NoDup (f <$> keep_top_100 (Js.sort_desc rank l)).
Proof.
  intros Hnd. rewrite keep_top_100_take.
  eapply sublist_NoDup; [|apply fmap_sublist, sublist_take].
  by rewrite sort_desc_perm.
Qed.

Lemma fmap_insert_same {A B : Type} (f : A → B) (l : list A) (i : nat) (x y : A) :
  l !! i = Some x → f y = f x → f <$> <[i := y]> l = f <$> l.
Proof.
  intros Hl Hf. rewrite list_fmap_insert, Hf. apply list_insert_id.
  by rewrite list_lookup_fmap, Hl.
Qed.

(** One merge keeps the user names distinct. *)
Lemma stats_leaderboard_NoDup now doc username g :
  NoDup (ScoreEntry.username <$> default [] doc) →
  NoDup (ScoreEntry.username <$> Scores.stats_leaderboard now doc username g).
Proof.
  intros Hnd.
  destruct (findIndex_spec
              (λ entry, String.eqb (ScoreEntry.username entry) username)
              (default [] doc)) as [[_ Hnone] | (n & x & Hn & Hl & Hx & _)].
  - rewrite stats_leaderboard_fresh.
    + apply keep_top_100_sort_NoDup. rewrite fmap_app. simpl.
      apply NoDup_app. split_and!; [done | | repeat constructor; set_solver].
      intros name Hname Hin. apply list_elem_of_singleton in Hin as ->.
      apply list_elem_of_fmap in Hname as (e & He & Hin).
      specialize (Hnone e Hin). simpl in Hnone.
      apply String.eqb_neq in Hnone. congruence.
    + intros Hin. apply list_elem_of_fmap in Hin as (e & He & Hin).
      specialize (Hnone e Hin). simpl in Hnone.
      apply String.eqb_neq in Hnone. congruence.
  - rewrite (stats_leaderboard_existing _ _ _ _ _ _ Hn Hl).
    apply keep_top_100_sort_NoDup.
    destruct (ScoreEntry.score x <? Scores.score g); [|done].
    rewrite (fmap_insert_same _ _ _ x); [done | done |].
    simpl. by apply String.eqb_eq in Hx.
Qed.

(** X6. The score-ranked leaderboard never holds two entries of one user
    name: whatever the submissions, in the primary store's document as in
    [leaderboard.json], a board with distinct user names keeps them
    distinct, so a board grown from nothing has one entry per user. *)
Theorem leaderboard_one_entry_per_user
  (subs : list (Z * string * Scores.gameStats))
  (doc : option (list ScoreEntry.t)) (now : Z) (username : string)
  (g : Scores.gameStats) :
  NoDup (ScoreEntry.username <$> default [] doc) →
  NoDup (ScoreEntry.username <$> default [] (stats_all subs doc))
  ∧ NoDup (ScoreEntry.username <$> Scores.updateLeaderboard now doc username g).
Proof.
  intros Hnd. split; [|by apply stats_leaderboard_NoDup].
  revert doc Hnd. induction subs as [|r subs IH]; intros doc Hnd; [done|].
  simpl. apply IH. simpl. by apply stats_leaderboard_NoDup.
Qed.

Lemma leaderboard_one_entry_per_user_witness :
  NoDup (ScoreEntry.username <$> default [] (stats_all sample_submissions None)).
Proof.
  refine (proj1 (leaderboard_one_entry_per_user sample_submissions None 0 "u"
                   (score_a 1) _)).
  simpl. constructor.
Defined.

(** X7. On a board with fewer than 100 entries a submission leaves an entry
    of the user on the board, and that entry carries the better of the score
    the user's entry had and the score submitted (the score submitted, when
    the user had no entry): a score on the board never goes down. *)
Theorem leaderboard_keeps_best
  (now : Z) (doc : option (list ScoreEntry.t)) (username : string)
  (g : Scores.gameStats) :
  (length (default [] doc) < 100)%nat →
  ∃ e, e ∈ Scores.updateLeaderboard now doc username g
    ∧ e ∈ Scores.stats_leaderboard now doc username g
    ∧ ScoreEntry.username e = username
    ∧ ScoreEntry.score e
        = match Js.find
                  (λ entry, String.eqb (ScoreEntry.username entry) username)
                  (default [] doc) with
          | Some old => Z.max (ScoreEntry.score old) (Scores.score g)
          | None => Scores.score g
          end.
Proof.
  intros Hlen.
  change (Scores.updateLeaderboard now doc username g)
    with (Scores.stats_leaderboard now doc username g).
  destruct (Js.find _ _) as [old|] eqn:Hfind.
  - destruct (find_findIndex _ _ _ Hfind) as (n & Hn & Hl).
    apply find_Some in Hfind as [Hin Hname]. apply String.eqb_eq in Hname.
    rewrite (stats_leaderboard_existing _ _ _ _ _ _ Hn Hl).
    destruct (Z.ltb_spec (ScoreEntry.score old) (Scores.score g)) as [Hlt|Hge].
    + exists (ScoreEntry.mk username (Scores.score g) (Scores.questionsAnswered g)
                (Scores.correctAnswers g) (Scores.averageTimePerQuestion g)
                (Scores.totalTime g) now).
      split_and!; [| |reflexivity|simpl; lia];
        rewrite keep_top_100_id, sort_desc_perm
          by (rewrite sort_desc_length, length_insert; lia);
        (eapply list_elem_of_lookup_2, list_lookup_insert_eq;
         by eapply lookup_lt_Some).
    + exists old. split_and!; [| |done|lia];
        by rewrite keep_top_100_id, sort_desc_perm
          by (rewrite sort_desc_length; lia).
  - rewrite stats_leaderboard_fresh.
    + exists (ScoreEntry.mk username (Scores.score g) (Scores.questionsAnswered g)
                (Scores.correctAnswers g) (Scores.averageTimePerQuestion g)
                (Scores.totalTime g) now).
      split_and!; [| |reflexivity|reflexivity];
        rewrite keep_top_100_id, sort_desc_perm
          by (rewrite sort_desc_length, length_app; simpl; lia);
        apply elem_of_app; right; left.
    + intros Hin. apply list_elem_of_fmap in Hin as (e & He & Hin).
      rewrite find_None in Hfind. specialize (Hfind e Hin). simpl in Hfind.
      apply String.eqb_neq in Hfind. congruence.
Qed.

Lemma leaderboard_keeps_best_witness :
  ∃ e, e ∈ Scores.updateLeaderboard 2
             (Some [ScoreEntry.mk "a" 100 16 12 7 100 1]) "a" (score_a 50)
    ∧ ScoreEntry.username e = "a"%string
    ∧ ScoreEntry.score e = 100.
Proof.
  destruct (leaderboard_keeps_best 2 (Some [ScoreEntry.mk "a" 100 16 12 7 100 1])
              "a" (score_a 50)) as (e & H1 & _ & H2 & H3).
  - simpl. lia.
  - exists e. split_and!; [exact H1 | exact H2 | exact H3].
Defined.

(** ** The prize-ranked leaderboard: ids and places *)

Lemma add_entry_ids_NoDup (board : list Entry.t) (e : Entry.t) :
  Entry.id e = next_entry_id board →
  NoDup (Entry.id <$> board) → NoDup (Entry.id <$> add_entry board e).
Proof.
  intros Hid Hnd. apply keep_top_100_sort_NoDup. rewrite fmap_app. simpl.
  apply NoDup_app. split_and!; [done | | repeat constructor; set_solver].
  intros i Hi Hin. apply list_elem_of_singleton in Hin as ->.
  apply list_elem_of_fmap in Hi as (x & Hx & Hin).
  apply next_entry_id_fresh in Hin. lia.
Qed.

Lemma game_complete_ids_NoDup to_number now s u b :
  NoDup (Entry.id <$> default [] (Complete.leaderboard s)) →
  NoDup (Entry.id <$>
           default [] (Complete.leaderboard
                         (Complete.game_complete to_number now s u b).1)).
Proof.
  intros Hnd. unfold Complete.game_complete.
  destruct (Js.gt0 (Complete.finalPrize b)); simpl; [|done].
  destruct (Complete.entry_time to_number b); simpl; [|done].
  by apply add_entry_ids_NoDup.
Qed.

(** X8. Entry ids on the prize-ranked leaderboard stay pairwise distinct:
    over any sequence of completions, with or without prize, and over a
    POST /api/complete-game, a board whose ids are distinct keeps them
    distinct, the new id being above every id on the board. *)
Theorem leaderboard_ids_distinct
  (to_number : string → option Z)
  (reqs : list (Z * Complete.identity * Complete.body)) (s : Complete.store)
  (now : Z) (doc : option (list Entry.t)) (lb : Legacy.body) :
  NoDup (Entry.id <$> default [] (Complete.leaderboard s)) →
  NoDup (Entry.id <$> default [] doc) →
  NoDup (Entry.id <$>
           default [] (Complete.leaderboard (complete_all to_number reqs s)))
  ∧ NoDup (Entry.id <$> default [] (Legacy.complete_game to_number now doc lb).1)
  ∧ ∀ e, e ∈ default [] doc →
      Entry.id e < next_entry_id (default [] doc).
Proof.
  intros Hs Hdoc. split_and!.
  - revert s Hs. induction reqs as [|r reqs IH]; intros s Hs; [done|].
    simpl. apply IH. by apply game_complete_ids_NoDup.
  - unfold Legacy.complete_game.
    destruct (Legacy.entry_time to_number lb); simpl; [|done].
    destruct (_ && _); simpl; [|done].
    by apply add_entry_ids_NoDup.
  - intros e. apply next_entry_id_fresh.
Qed.

Lemma leaderboard_ids_distinct_witness :
  NoDup (Entry.id <$>
           default [] (Complete.leaderboard
                         (complete_all digits_number sample_completions
                            (Complete.mk_store ∅ None)))).
Proof.
  refine (proj1 (leaderboard_ids_distinct digits_number sample_completions
                   (Complete.mk_store ∅ None) 0 None (legacy_with_prize 1) _ _));
    simpl; constructor.
Defined.

(** The place an insertion picks: behind the leading elements that rank at
    least as high, in front of the first that ranks lower. *)
Lemma insert_desc_place {A : Type} (rank : A → Z) (x : A) (l : list A) :
  ∃ higher lower,
    l = higher ++ lower
    ∧ Js.insert_desc rank x l = higher ++ x :: lower
    ∧ Forall (λ y, rank x ≤ rank y) higher
    ∧ match lower with [] => True | y :: _ => rank y < rank x end.
Proof.
  induction l as [|y l (hi & lo & Hl & Hins & Hhi & Hlo)]; simpl.
  - exists [], []. by split_and!.
  - destruct (Z.ltb_spec (rank y) (rank x)) as [Hlt|Hge].
    + exists [], (y :: l). by split_and!.
    + exists (y :: hi), lo. split_and!; [by rewrite Hl | by rewrite Hins | | done].
      by constructor.
Qed.

(** X9. On a board in descending order a completion with a positive prize
    whose entry the schema accepts moves no entry: it is answered with
    success, the new entry goes behind the entries holding at least its prize
    and in front of those holding less, the old entries keep their order, and
    the stored list is the first 100 of that, one entry longer than before
    until the board is full. A completion whose [completionTime] does not
    cast to a number is answered with 500 and leaves the leaderboard document
    as it was. *)
Theorem game_complete_inserts_in_place
  (to_number : string → option Z)
  (now : Z) (s : Complete.store) (u : Complete.identity) (b : Complete.body)
  (p : Z) :
  Complete.finalPrize b = Some p → 0 < p →
  StronglySorted (Js.desc Entry.prizeWon) (default [] (Complete.leaderboard s)) →
  (is_Some (Complete.entry_time to_number b) →
   ∃ higher lower newEntry r,
     default [] (Complete.leaderboard s) = higher ++ lower
     ∧ Complete.leaderboard (Complete.game_complete to_number now s u b).1
         = Some (take 100 (higher ++ newEntry :: lower))
     ∧ (Complete.game_complete to_number now s u b).2 = Complete.Sent r
     ∧ Complete.success r = true
     ∧ Entry.prizeWon newEntry = p
     ∧ Entry.userId newEntry = Complete.userId u
     ∧ Entry.playerName newEntry = Complete.username u
     ∧ (∀ e, e ∈ higher → p ≤ Entry.prizeWon e)
     ∧ (∀ e, e ∈ lower → Entry.prizeWon e < p)
     ∧ length (take 100 (higher ++ newEntry :: lower))
         = (100 `min` S (length (default [] (Complete.leaderboard s))))%nat)
  ∧ (Complete.entry_time to_number b = None →
     Complete.leaderboard (Complete.game_complete to_number now s u b).1
       = Complete.leaderboard s
     ∧ (Complete.game_complete to_number now s u b).2
         = Complete.Failed 500 "Server error saving game results").
Proof.
  intros Hb Hp Hsorted.
  set (board := default [] (Complete.leaderboard s)) in *.
  remember (100 `min` S (length board))%nat as bound eqn:Hbound.
  unfold Complete.game_complete. rewrite Hb. simpl.
  apply Z.ltb_lt in Hp. rewrite Hp. simpl. apply Z.ltb_lt in Hp.
  fold board. split; [intros [time Htime] | intros Htime]; rewrite Htime; [|done].
  simpl.
  set (newEntry := Entry.mk (next_entry_id board) _ _ _ _ _ _ _).
  destruct (insert_desc_place Entry.prizeWon newEntry board)
    as (hi & lo & Hboard & Hins & Hhi & Hlo).
  exists hi, lo, newEntry. eexists.
  unfold add_entry.
  rewrite keep_top_100_take, sort_desc_snoc, sort_desc_sorted_id, Hins by done.
  split_and!; try done.
  - intros e He. rewrite Forall_forall in Hhi. apply (Hhi e He).
  - intros e He. destruct lo as [|y lo]; [inversion He|].
    apply elem_of_cons in He as [->|He]; [done|].
    rewrite Hboard in Hsorted. apply StronglySorted_app_1_r in Hsorted.
    apply StronglySorted_inv in Hsorted as [_ Hy].
    rewrite Forall_forall in Hy. specialize (Hy e He). unfold Js.desc in Hy.
    simpl in Hlo. lia.
  - rewrite length_take, length_app. cbn [length].
    assert (length board = (length hi + length lo)%nat) as Hlen
      by (by rewrite Hboard at 1; rewrite length_app).
    lia.
Qed.

Lemma game_complete_inserts_in_place_witness :
  (∃ higher lower newEntry,
     Complete.leaderboard
       (Complete.game_complete digits_number 0 (Complete.mk_store ∅ None) ann
          (game_with_prize 5000)).1
       = Some (take 100 (higher ++ newEntry :: lower))
     ∧ Entry.prizeWon newEntry = 5000)
  ∧ (Complete.game_complete digits_number 0 (Complete.mk_store ∅ None) ann
       (clock_game 5000)).2
      = Complete.Failed 500 "Server error saving game results".
Proof.
  split.
  - destruct (game_complete_inserts_in_place digits_number 0
                (Complete.mk_store ∅ None) ann (game_with_prize 5000) 5000
                eq_refl eq_refl) as [H _].
    + simpl. constructor.
    + destruct (H (ex_intro _ _ eq_refl))
        as (hi & lo & e & r & _ & H1 & _ & _ & H2 & _).
      exists hi, lo, e. split; [exact H1 | exact H2].
  - refine (proj2 (proj2 (game_complete_inserts_in_place digits_number 0
                            (Complete.mk_store ∅ None) ann (clock_game 5000) 5000
                            eq_refl eq_refl _) eq_refl)).
    simpl. constructor.
Defined.

(** ** The session builder: what the padding loop adds *)

Lemma short_catalog_stuck fuel rand shuffled fs :
  (0 < length (getAllQuestions fs) < 16)%nat →
  Session.game_questions fuel rand shuffled fs = None.
Proof.
  intros [Hpos Hshort]. unfold Session.game_questions, Session.getRandomQuestions.
  assert ((length (getAllQuestions fs) <=? 16)%nat = true) as ->
    by (apply Nat.leb_le; lia).
  assert ((length (imap Session.selected_item (getAllQuestions fs)) <? 16)%nat
          = true) as ->
    by (apply Nat.ltb_lt; rewrite length_imap; lia).
  rewrite pad_exhausted; [done | done | by rewrite length_imap |].
  intros q Hq. rewrite (selected_item_ids (λ i, i)).
  apply list_elem_of_fmap. eauto.
Qed.

Lemma full_selection_answers fuel rand shuffled fs :
  length (Session.getRandomQuestions (getAllQuestions fs) shuffled 16) = 16%nat →
  Session.game_questions fuel rand shuffled fs
    = Some (Session.mk_response
              (imap Session.selected_item
                 (Session.getRandomQuestions (getAllQuestions fs) shuffled 16))
              16).
Proof.
  intros Hlen. unfold Session.game_questions.
  assert ((length (imap Session.selected_item
                     (Session.getRandomQuestions (getAllQuestions fs) shuffled 16))
           <? 16)%nat = false) as ->.
  { apply Nat.ltb_ge. rewrite length_imap. lia. }
  unfold Js.slice0. by rewrite take_ge by (rewrite length_imap; lia).
Qed.

(** X10. With a catalog of exactly 16 questions the game is the catalog in
    file order, whatever the shuffle and the random draws: the selection
    returns the pool as it is when it holds no more than the count asked
    for. *)
Theorem game_of_sixteen_is_file_order
  (fuel : nat) (rand : nat → nat) (shuffled : list Question.t) (fs : Files.t) :
  length (getAllQuestions fs) = 16%nat →
  ∃ r, Session.game_questions fuel rand shuffled fs = Some r
    ∧ Session.questions r = imap Session.selected_item (getAllQuestions fs)
    ∧ Session.Item.id <$> Session.questions r
        = Question.id <$> getAllQuestions fs.
Proof.
  intros Hlen.
  assert (Session.getRandomQuestions (getAllQuestions fs) shuffled 16
          = getAllQuestions fs) as Hsel.
  { unfold Session.getRandomQuestions. by rewrite Hlen. }
  eexists. split; [apply full_selection_answers; by rewrite Hsel|].
  simpl. rewrite Hsel. split; [done|]. apply (selected_item_ids (λ i, i)).
Qed.

Lemma game_of_sixteen_is_file_order_witness :
  ∃ r, Session.game_questions 0 (λ k, k) [] sixteen_files = Some r
    ∧ Session.Item.id <$> Session.questions r
        = Question.id <$> getAllQuestions sixteen_files.
Proof.
  destruct (game_of_sixteen_is_file_order 0 (λ k, k) [] sixteen_files eq_refl)
    as (r & H1 & _ & H2).
  exists r. split; [exact H1 | exact H2].
Defined.

(** X11. The padding loop never contributes an item. Whenever the builder
    answers (the shuffle being a permutation of the catalog), the catalog is
    empty or holds at least 16 questions, and the questions sent are exactly
    the items built from the initial selection: none or 16 of them. *)
Theorem game_questions_never_padded
  (fuel : nat) (rand : nat → nat) (shuffled : list Question.t) (fs : Files.t)
  (r : Session.response) :
  getAllQuestions fs ≡ₚ shuffled →
  Session.game_questions fuel rand shuffled fs = Some r →
  (getAllQuestions fs = [] ∨ (16 ≤ length (getAllQuestions fs))%nat)
  ∧ Session.questions r
      = imap Session.selected_item
          (Session.getRandomQuestions (getAllQuestions fs) shuffled 16)
  ∧ (length (Session.questions r) = 0%nat
     ∨ length (Session.questions r) = 16%nat).
Proof.
  intros Hperm Hr.
  destruct (decide (length (getAllQuestions fs) = 0%nat)) as [H0|H0].
  - apply nil_length_inv in H0.
    rewrite (game_questions_empty_catalog _ _ _ _ H0) in Hr.
    injection Hr as <-. rewrite H0. simpl. auto.
  - destruct (decide (length (getAllQuestions fs) < 16)%nat) as [Hlt|Hge].
    + rewrite short_catalog_stuck in Hr by lia. done.
    + assert (16 ≤ length (getAllQuestions fs))%nat as Hlen by lia.
      destruct (getRandomQuestions_16 _ _ Hperm Hlen) as (Hsel & _).
      rewrite (full_selection_answers _ _ _ _ Hsel) in Hr.
      injection Hr as <-. simpl. rewrite length_imap. auto.
Qed.

Lemma game_questions_never_padded_witness :
  ∃ r, Session.game_questions 0 (λ k, k) (reverse sample_catalog)
         sample_catalog_files = Some r
    ∧ Session.questions r
        = imap Session.selected_item
            (Session.getRandomQuestions (getAllQuestions sample_catalog_files)
               (reverse sample_catalog) 16).
Proof.
  assert (getAllQuestions sample_catalog_files ≡ₚ reverse sample_catalog) as H1.
  { symmetry. apply reverse_Permutation. }
  eexists. split; [reflexivity|].
  apply (game_questions_never_padded 0 (λ k, k) (reverse sample_catalog)
           sample_catalog_files _ H1 eq_refl).
Defined.

(** ** Batches of questions: the fallback to the files *)

Lemma insertMany_ok new coll coll' :
  Progress.insertMany new coll = (coll', true) → coll' = coll ++ new.
Proof.
  revert coll. induction new as [|d new IH]; intros coll; simpl.
  - intros [= <-]. by rewrite app_nil_r.
  - destruct (Js.some _ coll); [done|]. intros H%IH. by rewrite H, <- app_assoc.
Qed.


Lemma limit_nil_inv {A : Type} (n : nat) (l : list A) :
  length (Progress.limit n l) = 0%nat → l = [].
Proof.
  destruct n as [|n], l as [|x l]; simpl; try done.
Qed.

(** X12. When a MongoDB-backed POST /api/questions answers from the file
    catalog, no document of the collection matched the query; the questions
    sent are questions of the file catalog, in its order and at most
    [count], none of them on the user's list in [user_questions.json]; that
    list is extended by the ids sent and the documents built from the
    questions are appended to the collection, while the [questionsAnswered]
    of the user's document stays as it was. *)
Theorem next_batch_from_files
  (matches : Progress.Doc.t → bool) (allQuestions : list Question.t)
  (to_doc : Question.t → Progress.Doc.t) (s s' : Progress.store)
  (username : string) (count : nat) (selected : list Question.t) :
  Progress.next_batch matches allQuestions to_doc s username count
    = (s', Progress.Selected selected) →
  ∃ data,
    Files.user_questions_json (Progress.files s) = Some data
    ∧ (∀ d, d ∈ Progress.docs s → matches d = true →
         Progress.Doc.id d ∈ default [] (Progress.users s !! username))
    ∧ selected `sublist_of` allQuestions
    ∧ (length selected ≤ count)%nat
    ∧ (∀ q, q ∈ selected → Question.id q ∉ default [] (data !! username))
    ∧ Files.user_questions_json (Progress.files s')
        = Some (<[username := default [] (data !! username)
                                ++ (Question.id <$> selected)]> data)
    ∧ Progress.docs s' = Progress.docs s ++ (to_doc <$> selected)
    ∧ Progress.users s' !! username
        = Some (default [] (Progress.users s !! username)).
Proof.
  unfold Progress.next_batch, Progress.find_or_create_user.
  destruct (Progress.users s !! username) as [answered|] eqn:Husers; [|done].
  cbn [default].
  destruct (length (Progress.limit count _) =? 0)%nat eqn:Hnone; [|done].
  apply Nat.eqb_eq, limit_nil_inv in Hnone.
  destruct (Files.user_questions_json (Progress.files s)) as [data|]; [|done].
  destruct (unused_batch (default [] (data !! username)) allQuestions count)
    as (Hsub & Hlen & Hnew).
  set (batch := Js.slice0 count _) in *.
  assert (∀ d, d ∈ Progress.docs s → matches d = true →
               Progress.Doc.id d ∈ answered) as Hprimary.
  { intros d Hd Hm. pose proof (filter_nil_inv _ _ Hnone d Hd) as Hf.
    simpl in Hf. rewrite Hm in Hf. simpl in Hf.
    apply negb_false_iff in Hf. by apply includes_true. }
  destruct (0 <? length (to_doc <$> batch))%nat eqn:Hsome.
  - destruct (Progress.insertMany _ _) as [docs' ok] eqn:Hins.
    destruct ok; [|done]. intros [= <- <-]. apply insertMany_ok in Hins.
    exists data. by split_and!.
  - intros [= <- <-]. exists data. split_and!; try done. simpl.
    apply Nat.ltb_ge in Hsome.
    destruct (to_doc <$> batch) as [|? ?] eqn:Hb; [|simpl in Hsome; lia].
    by rewrite app_nil_r.
Qed.

Lemma next_batch_from_files_witness :
  ∃ data,
    Files.user_questions_json (Progress.files fresh_store) = Some data
    ∧ Progress.users
        (Progress.questions_by_level fresh_store "u" "easy" 2).1 !! "u"%string
      = Some (default [] (Progress.users fresh_store !! "u"%string)).
Proof.
  destruct (next_batch_from_files
              (λ d, bool_decide (Progress.Doc.level d = Some "easy"%string))
              (getQuestions (Progress.files fresh_store) "easy")
              (λ q, Progress.Doc.mk (Question.id q) (Question.question q)
                      (Question.options q) (Question.answer q)
                      (Some "easy"%string) "general")
              fresh_store
              (Progress.questions_by_level fresh_store "u" "easy" 2).1
              "u" 2 [demo_question "q1"; demo_question "q2"] eq_refl)
    as (data & H1 & _ & _ & _ & _ & _ & _ & H2).
  exists data. split; [exact H1 | exact H2].
Defined.



(** ** GET /api/leaderboard *)



(** ** Statistics over a sequence of completions *)

(** The statistics are saved whatever becomes of the leaderboard. *)
Lemma game_complete_stats to_number now s u b :
  Complete.stats (Complete.game_complete to_number now s u b).1
  = <[Complete.username u := Complete.save_stats (Complete.stats s) u b]>
      (Complete.stats s).
Proof.
  unfold Complete.game_complete.
  destruct (Js.gt0 _); [destruct (Complete.entry_time _ _)|]; done.
Qed.





(** The largest id of a collection is at least every id in it. *)
Lemma last_stat_id_max (coll : gmap string Stats.t) (k : string) (st : Stats.t) :
  coll !! k = Some st →
  ∃ m, last_stat_id coll = Some m ∧ Stats.id st ≤ m.
Proof.
  unfold last_stat_id. revert k st.
  apply (map_fold_weak_ind
           (λ r (m : gmap string Stats.t),
              ∀ k st, m !! k = Some st → ∃ a, r = Some a ∧ Stats.id st ≤ a)).
  - intros k st H. by rewrite lookup_empty in H.
  - intros i x m r Hi IH k st Hk.
    destruct (decide (i = k)) as [->|Hne].
    + rewrite lookup_insert_eq in Hk. injection Hk as ->.
      destruct r as [a|]; eexists; (split; [reflexivity|]); lia.
    + rewrite lookup_insert_ne in Hk by done.
      destruct (IH k st Hk) as (a & -> & Ha).
      eexists. split; [reflexivity|]. lia.
Qed.

(** X16. The ids of the [Stats] documents stay pairwise distinct over any
    sequence of completions: a completion leaves the id of an existing
    document as it is, and the document it creates for a new user gets an id
    above every id of the collection. *)
Theorem stats_ids_stay_distinct
  (to_number : string → option Z)
  (reqs : list (Z * Complete.identity * Complete.body)) (s : Complete.store) :
  (∀ u1 u2 st1 st2, u1 ≠ u2 →
     Complete.stats s !! u1 = Some st1 → Complete.stats s !! u2 = Some st2 →
     Stats.id st1 ≠ Stats.id st2) →
  ∀ u1 u2 st1 st2, u1 ≠ u2 →
    Complete.stats (complete_all to_number reqs s) !! u1 = Some st1 →
    Complete.stats (complete_all to_number reqs s) !! u2 = Some st2 →
    Stats.id st1 ≠ Stats.id st2.
Proof.
  revert s. induction reqs as [|r reqs IH]; intros s Hs; [done|].
  simpl. apply IH. clear IH.
  destruct r as [[now u] b]. simpl.
  rewrite game_complete_stats.
  assert (∀ other st, other ≠ Complete.username u →
            Complete.stats s !! other = Some st →
            Stats.id st
              ≠ Stats.id (Complete.save_stats (Complete.stats s) u b)) as Hnew.
  { intros other st Hother Hst. unfold Complete.save_stats.
    destruct (Complete.stats s !! Complete.username u) as [mine|] eqn:Hmine.
    - simpl. by apply (Hs other (Complete.username u)).
    - simpl. destruct (last_stat_id_max _ _ _ Hst) as (m & -> & Hm). lia. }
  intros u1 u2 st1 st2 Hne H1 H2.
  destruct (decide (u1 = Complete.username u)) as [->|Hu1];
    destruct (decide (u2 = Complete.username u)) as [->|Hu2]; [done| | |].
  - rewrite lookup_insert_eq in H1. rewrite lookup_insert_ne in H2 by done.
    injection H1 as <-. intros Heq. by apply (Hnew u2 st2 Hu2 H2).
  - rewrite lookup_insert_eq in H2. rewrite lookup_insert_ne in H1 by done.
    injection H2 as <-. by apply (Hnew u1 st1 Hu1 H1).
  - rewrite lookup_insert_ne in H1, H2 by done. by apply (Hs u1 u2).
Qed.

Lemma stats_ids_stay_distinct_witness :
  ∃ st1 st2,
    Complete.stats (complete_all digits_number mixed_completions
                      (Complete.mk_store ∅ None))
      !! "ann"%string = Some st1
    ∧ Complete.stats (complete_all digits_number mixed_completions
                        (Complete.mk_store ∅ None))
        !! "bob"%string = Some st2
    ∧ Stats.id st1 ≠ Stats.id st2.
Proof.
  eexists _, _. split; [vm_compute; reflexivity|].
  split; [vm_compute; reflexivity|].
  refine (stats_ids_stay_distinct digits_number mixed_completions
            (Complete.mk_store ∅ None)
            _ "ann" "bob" _ _ _ eq_refl eq_refl).
  - intros u1 u2 st1' st2' _ H. simpl in H. by rewrite lookup_empty in H.
  - done.
Defined.

(** ** POST /api/stats: the document and the file side by side *)


Section SortMap.
Context {A : Type} (rank : A → Z) (f : A → A).
Hypothesis rank_f : ∀ x, rank (f x) = rank x.




End SortMap.




(** ** Batches of questions: the collection *)

(** X18. When a MongoDB-backed POST /api/questions answers from the
    collection, the documents sent match the query, none of them has an id
    among the [questionsAnswered] of the user's document, and for a positive
    [count] there are at most [count] of them, with distinct ids when the
    collection has distinct ids; the ids sent are appended to
    [questionsAnswered], while the collection and the files, with them
    [user_questions.json], stay as they were. *)
Theorem next_batch_from_collection
  (matches : Progress.Doc.t → bool) (allQuestions : list Question.t)
  (to_doc : Question.t → Progress.Doc.t) (s s' : Progress.store)
  (username : string) (count : nat) (questions : list Progress.Doc.t) :
  Progress.next_batch matches allQuestions to_doc s username count
    = (s', Progress.Docs questions) →
  questions ≠ []
  ∧ questions `sublist_of` Progress.docs s
  ∧ (∀ d, d ∈ questions →
       matches d = true
       ∧ Progress.Doc.id d ∉ default [] (Progress.users s !! username))
  ∧ (count ≠ 0%nat → (length questions ≤ count)%nat)
  ∧ (NoDup (Progress.Doc.id <$> Progress.docs s) →
       NoDup (Progress.Doc.id <$> questions))
  ∧ Progress.users s' !! username
      = Some (default [] (Progress.users s !! username)
                ++ (Progress.Doc.id <$> questions))
  ∧ Progress.docs s' = Progress.docs s
  ∧ Progress.files s' = Progress.files s.
Proof.
  unfold Progress.next_batch, Progress.find_or_create_user.
  destruct (Progress.users s !! username) as [answered|] eqn:Husers; [|done].
  cbn [default].
  set (unseen := Js.filter _ (Progress.docs s)).
  assert (Progress.limit count unseen `sublist_of` unseen) as Hlimit.
  { destruct count; simpl; [done | apply sublist_take]. }
  destruct (length (Progress.limit count unseen) =? 0)%nat eqn:Hnone.
  { destruct (Files.user_questions_json _); [|done].
    destruct (0 <? _)%nat; [|done].
    by destruct (Progress.insertMany _ _) as [? []]. }
  intros [= <- <-]. simpl. split_and!; try done.
  - intros Hnil. rewrite Hnil in Hnone. done.
  - etransitivity; [exact Hlimit | apply filter_sublist].
  - intros d Hd. pose proof (elem_of_sublist _ _ _ Hd Hlimit) as Hin.
    apply elem_of_filter in Hin as [_ Hin].
    apply andb_true_iff in Hin as [Hm Hin]. apply negb_true_iff in Hin.
    split; [done | by apply includes_false].
  - intros Hcount. destruct count as [|n]; [done|]. simpl.
    rewrite length_take. lia.
  - intros Hnd. eapply sublist_NoDup; [exact Hnd|]. apply fmap_sublist.
    etransitivity; [exact Hlimit | apply filter_sublist].
  - apply lookup_insert_eq.
Qed.

Lemma next_batch_from_collection_witness :
  Progress.users (Progress.questions_by_level stocked_store "u" "easy" 2).1
    !! "u"%string
  = Some (default [] (Progress.users stocked_store !! "u"%string)
            ++ (Progress.Doc.id <$>
                  [Progress.Doc.mk "q2" "Which one?" ["left"; "right"]%string
                     "right" (Some "easy"%string) "general";
                   Progress.Doc.mk "q3" "Which one?" ["left"; "right"]%string
                     "right" (Some "easy"%string) "general"])).
Proof.
  assert (Progress.next_batch
            (λ d, bool_decide (Progress.Doc.level d = Some "easy"%string))
            (getQuestions (Progress.files stocked_store) "easy")
            (λ q, Progress.Doc.mk (Question.id q) (Question.question q)
                    (Question.options q) (Question.answer q)
                    (Some "easy"%string) "general")
            stocked_store "u" 2
          = ((Progress.questions_by_level stocked_store "u" "easy" 2).1,
             Progress.Docs
               [Progress.Doc.mk "q2" "Which one?" ["left"; "right"]%string
                  "right" (Some "easy"%string) "general";
                Progress.Doc.mk "q3" "Which one?" ["left"; "right"]%string
                  "right" (Some "easy"%string) "general"])) as Hrun.
  { vm_compute. reflexivity. }
  destruct (next_batch_from_collection _ _ _ _ _ _ _ _ Hrun)
    as (_ & _ & _ & _ & _ & H & _).
  exact H.
Defined.

(** ** The selection on its own *)

(** X19. The random selection draws without replacement: for every count and
    every outcome of the shuffle that is a permutation of the pool, the
    selection has as many questions as the count allows, [count] or the
    whole pool, and holds no question more often than the pool does. *)
Theorem getRandomQuestions_without_replacement
  (pool shuffled : list Question.t) (count : nat) :
  pool ≡ₚ shuffled →
  length (Session.getRandomQuestions pool shuffled count)
    = (count `min` length pool)%nat
  ∧ Session.getRandomQuestions pool shuffled count ⊆+ pool
  ∧ (NoDup (Question.id <$> pool) →
       NoDup (Question.id <$> Session.getRandomQuestions pool shuffled count)).
Proof.
  intros Hperm. unfold Session.getRandomQuestions, Js.slice0.
  destruct (Nat.leb_spec (length pool) count) as [Hle|Hgt].
  - split_and!; [lia | done | done].
  - assert (take count shuffled ⊆+ pool) as Hsub.
    { rewrite Hperm. apply sublist_submseteq, sublist_take. }
    split_and!; [rewrite length_take, <- Hperm; lia | done |].
    intros Hnd. rewrite Hperm in Hnd.
    eapply sublist_NoDup; [exact Hnd|]. apply fmap_sublist, sublist_take.
Qed.

Lemma getRandomQuestions_without_replacement_witness :
  length (Session.getRandomQuestions sample_catalog (reverse sample_catalog) 5)
    = (5 `min` length sample_catalog)%nat.
Proof.
  refine (proj1 (getRandomQuestions_without_replacement sample_catalog
                   (reverse sample_catalog) 5 _)).
  symmetry. apply reverse_Permutation.
Defined.

(** ** POST /api/questions/random *)

(** X21. POST /api/questions/random, the shuffle being a permutation of the
    pool: as many questions are sent as the count allows, the count or the
    whole pool; when the collection holds at least [count] questions the
    file is not used and every question sent is a document of the
    collection; otherwise a question sent is a document or is built from a
    file question whose id no document has; and when neither the collection
    nor the file holds an id twice, no id is sent twice. *)
Theorem questions_random_deduplicates
  (category_of : Question.t → option string) (docs : list Progress.Doc.t)
  (fs : Files.t) (count : option nat) (shuffled : list Progress.Doc.t) :
  Random.pool category_of docs fs (default 16%nat count) ≡ₚ shuffled →
  let sent := Random.questions_random shuffled count in
  length sent
    = (default 16%nat count
         `min` length (Random.pool category_of docs fs (default 16%nat count)))%nat
  ∧ ((default 16%nat count ≤ length docs)%nat → sent ⊆ docs)
  ∧ (∀ d, d ∈ sent →
       d ∈ docs
       ∨ ∃ q, q ∈ getAllQuestions fs ∧ d = Random.from_json category_of q
           ∧ Question.id q ∉ (Progress.Doc.id <$> docs))
  ∧ (NoDup (Progress.Doc.id <$> docs) →
     NoDup (Question.id <$> getAllQuestions fs) →
     NoDup (Progress.Doc.id <$> sent)).
Proof.
  intros Hperm. simpl. unfold Random.questions_random, Js.slice0.
  set (n := default 16%nat count) in *.
  assert (∀ d, d ∈ Random.pool category_of docs fs n →
            d ∈ docs
            ∨ ∃ q, q ∈ getAllQuestions fs ∧ d = Random.from_json category_of q
                ∧ Question.id q ∉ (Progress.Doc.id <$> docs)) as Hpool.
  { intros d. unfold Random.pool.
    destruct (length docs <? n)%nat; [|by left].
    intros [Hd|Hd]%elem_of_app; [by left|]. right.
    apply elem_of_filter in Hd as [Hd Hnew].
    apply list_elem_of_fmap in Hd as (q & -> & Hq).
    exists q. split_and!; [done | done |].
    apply negb_true_iff in Hnew. by apply includes_false in Hnew. }
  split_and!.
  - by rewrite length_take, Hperm.
  - intros Hcount. unfold Random.pool in Hperm.
    assert ((length docs <? n)%nat = false) as Hge by (apply Nat.ltb_ge; lia).
    rewrite Hge in Hperm. rewrite Hperm. apply subseteq_take.
  - intros d Hd. apply Hpool. rewrite Hperm. by apply (subseteq_take n).
  - intros Hdocs Hfile.
    eapply sublist_NoDup; [|apply fmap_sublist, sublist_take].
    rewrite <- Hperm. unfold Random.pool.
    destruct (length docs <? n)%nat; [|done].
    rewrite fmap_app. apply NoDup_app. split_and!; [done| |].
    + intros i Hi Hin. apply list_elem_of_fmap in Hin as (d & -> & Hd).
      apply elem_of_filter in Hd as [_ Hnew].
      apply negb_true_iff, includes_false in Hnew. done.
    + apply filter_fmap_NoDup. rewrite <- list_fmap_compose.
      exact Hfile.
Qed.

Lemma questions_random_deduplicates_witness :
  length (Random.questions_random
            (reverse (Random.pool (λ _, None) (Progress.docs stocked_store)
                        (Progress.files stocked_store) 3))
            (Some 3%nat))
  = (3 `min` length (Random.pool (λ _, None) (Progress.docs stocked_store)
                       (Progress.files stocked_store) 3))%nat.
Proof.
  refine (proj1 (questions_random_deduplicates (λ _, None)
                   (Progress.docs stocked_store) (Progress.files stocked_store)
                   (Some 3%nat) _ _)).
  symmetry. apply reverse_Permutation.
Defined.
